(** * simple_store: a shallow embedding of [shopping_cart.py] and [store.py]

    The two Python classes [ShoppingCart] and [Store] are mutable objects
    whose methods may raise.  Every method is embedded as a computation in
    a state-and-exception monad: it receives the object, and yields the
    object as the call leaves it together with either the returned value
    or the raised exception.  A raising call keeps whatever mutation
    happened before the [raise], so that "the cart is unchanged on
    failure" is a statement to prove and not a consequence of the types. *)

From Stdlib Require Import ZArith Permutation Sorting.Sorted.
From stdpp Require Import base gmap strings list.

(** ** Python values *)

(** Modelled from the spec: the class [Item] of [item.py] is not part of
    the sources; it is a holder of the four fields below, and two items
    are equal iff all four fields are equal (value equality). *)
Record Item := mkItem {
  name : string;
  price : Z;
  hashtags : list string;
  description : string
}.

Global Instance Item_eq_dec : EqDecision Item.
Proof. solve_decision. Defined.

(** The exceptions of [errors.py] that the two classes raise, and the two
    built-in ones that [list.remove] and [my_items[0]] can raise. *)
Inductive exception :=
  | ItemNotExistError
  | TooManyMatchesError
  | ItemAlreadyExistsError
  | ValueError
  | IndexError.

Global Instance exception_eq_dec : EqDecision exception.
Proof. solve_decision. Defined.

Inductive outcome (A : Type) :=
  | Returned (a : A)
  | Raised (e : exception).
Global Arguments Returned {A} a.
Global Arguments Raised {A} e.

(** ** Method calls: state passing with exceptions *)

Definition method (S A : Type) : Type := S → S * outcome A.

Definition ret {S A} (a : A) : method S A := λ self, (self, Returned a).

Definition bind {S A B} (m : method S A) (k : A → method S B) : method S B :=
  λ self,
    match m self with
    | (self', Returned a) => k a self'
    | (self', Raised e) => (self', Raised e)
    end.

Definition raise {S A} (e : exception) : method S A := λ self, (self, Raised e).

Definition get {S} : method S S := λ self, (self, Returned self).

Definition put {S} (self' : S) : method S unit := λ _, (self', Returned tt).

Notation "x <- m ;; k" := (bind m (λ x, k))
  (at level 100, m at next level, right associativity, only parsing).

(** The object after the call, and what the call produced. *)
Definition state_after {S A} (r : S * outcome A) : S := fst r.
Definition result_of {S A} (r : S * outcome A) : outcome A := snd r.

(** ** Python built-ins used by the two classes *)

(** A [str] is taken as the string of the bytes of its UTF-8 encoding: on
    these, being a substring and the lexicographic order [String.leb]
    agree with Python's [in] and [<] on code points.

    [a in b] on [str]: [a] occurs in [b] as a contiguous substring. *)
Fixpoint contains (a b : string) : bool :=
  String.prefix a b ||
  match b with
  | EmptyString => false
  | String _ b' => contains a b'
  end.

(** [x in l] on a [list]: some element is equal to [x]. *)
Definition list_in (x : Item) (l : list Item) : bool := bool_decide (x ∈ l).

(** [l.remove(x)]: drops the first element equal to [x]; [None] stands
    for the [ValueError] of a list without such an element. *)
Fixpoint list_remove (x : Item) (l : list Item) : option (list Item) :=
  match l with
  | [] => None
  | y :: l' =>
      if decide (y = x) then Some l'
      else match list_remove x l' with
           | Some r => Some (y :: r)
           | None => None
           end
  end.

(** [sum(l)] on integers, a left fold from 0. *)
Definition sum_Z (l : list Z) : Z := foldl Z.add 0%Z l.
Definition sum_nat (l : list nat) : nat := foldl Nat.add 0 l.

(** [Counter(l)]: a dictionary from each element of [l] to its number of
    occurrences; [c[k]] is 0 for a key that is absent. *)
Definition Counter_get (c : gmap string nat) (k : string) : nat :=
  default 0 (c !! k).

Definition Counter (l : list string) : gmap string nat :=
  foldl (λ c k, <[k := S (Counter_get c k)]> c) ∅ l.

(** [sorted(l, key=key, reverse=reverse)].  Python's sort is stable, also
    under [reverse=True]: elements whose keys are equal keep the order
    they have in [l].  For a total preorder on the keys the stable sorted
    rearrangement of a list is unique, so it is computed here by insertion
    from the right, each element going in front of the first one it does
    not have to follow. *)
Section Sorted.
Context {A K : Type} (leK : K → K → bool) (key : A → K) (reverse : bool).

Definition goes_before (x y : A) : bool :=
  if reverse then leK (key y) (key x) else leK (key x) (key y).

Fixpoint insort (before : A → A → bool) (x : A) (l : list A) : list A :=
  match l with
  | [] => [x]
  | y :: l' =>
      if before x y then x :: y :: l' else y :: insort before x l'
  end.

Definition sort_by (before : A → A → bool) (l : list A) : list A :=
  foldr (insort before) [] l.

Definition sorted (l : list A) : list A := sort_by goes_before l.
End Sorted.

(** ** shopping_cart.py *)

Module ShoppingCart.

Record t := Build { items : list Item }.

Definition __init__ : t := {| items := [] |}.

Definition __len__ : method t nat :=
  self <- get ;; ret (length (items self)).

Definition __iter__ : method t (list Item) :=
  self <- get ;; ret (items self).

Definition add_item (item : Item) : method t unit :=
  self <- get ;;
  if list_in item (items self) then raise ItemAlreadyExistsError
  else put {| items := items self ++ [item] |}.

(** The [for] loop of [remove_item] over the elements still to visit. *)
Fixpoint remove_item_loop (item_name : string) (rest : list Item)
  : method t unit :=
  match rest with
  | [] => raise ItemNotExistError
  | item :: rest' =>
      if contains item_name (name item) then
        self <- get ;;
        match list_remove item (items self) with
        | Some l => put {| items := l |}
        | None => raise ValueError
        end
      else remove_item_loop item_name rest'
  end.

Definition remove_item (item_name : string) : method t unit :=
  self <- get ;; remove_item_loop item_name (items self).

Definition get_subtotal : method t Z :=
  self <- get ;;
  let sub_total := map price (items self) in
  ret (sum_Z sub_total).

End ShoppingCart.

(** ** store.py *)

Module Store.

Record t := Build {
  _items : list Item;
  _shopping_cart : ShoppingCart.t
}.

(** A call [self._shopping_cart.m(...)] from a method of the store. *)
Definition on_shopping_cart {A} (m : method ShoppingCart.t A)
  : method t A :=
  λ self,
    let (cart', r) := m (_shopping_cart self) in
    ({| _items := _items self; _shopping_cart := cart' |}, r).

(** [__init__] with the list that the YAML loader and
    [_convert_to_item_objects] produce. *)
Definition __init__ (loaded : list Item) : t :=
  {| _items := loaded; _shopping_cart := ShoppingCart.__init__ |}.

Definition get_items : method t (list Item) :=
  self <- get ;; ret (_items self).

Definition compute_rate (items_list : list Item)
  : method t (list (nat * Item)) :=
  self <- get ;;
  let list_of_hashtags :=
    flat_map hashtags (ShoppingCart.items (_shopping_cart self)) in
  let c := Counter list_of_hashtags in
  ret (map (λ item,
              let rate_numbers :=
                map (Counter_get c)
                    (List.filter (λ tag, bool_decide (tag ∈ list_of_hashtags))
                                 (hashtags item)) in
              (sum_nat rate_numbers, item))
           items_list).

Definition sort_by_rate (items_list : list Item) : method t (list Item) :=
  let items_list := sorted String.leb name false items_list in
  rated <- compute_rate items_list ;;
  let items_list := sorted Nat.leb fst true rated in
  ret (map snd items_list).

Definition search_by_name (item_name : string) : method t (list Item) :=
  self <- get ;;
  cart <- on_shopping_cart ShoppingCart.__iter__ ;;
  let my_items :=
    List.filter (λ item, contains item_name (name item)
                         && negb (list_in item cart))
                (_items self) in
  sort_by_rate my_items.

Definition search_by_hashtag (hashtag : string) : method t (list Item) :=
  self <- get ;;
  cart <- on_shopping_cart ShoppingCart.__iter__ ;;
  let my_hashtags :=
    List.filter (λ item, bool_decide (hashtag ∈ hashtags item)
                         && negb (list_in item cart))
                (_items self) in
  sort_by_rate my_hashtags.

Definition add_item (item_name : string) : method t unit :=
  self <- get ;;
  let my_items :=
    List.filter (λ item, contains item_name (name item)) (_items self) in
  if length my_items =? 0 then raise ItemNotExistError
  else if 1 <? length my_items then raise TooManyMatchesError
  else match my_items !! 0 with
       | Some item => on_shopping_cart (ShoppingCart.add_item item)
       | None => raise IndexError
       end.

Definition remove_item (item_name : string) : method t unit :=
  self <- get ;;
  let my_items :=
    List.filter (λ item, contains item_name (name item))
                (ShoppingCart.items (_shopping_cart self)) in
  if 1 <? length my_items then raise TooManyMatchesError
  else on_shopping_cart (ShoppingCart.remove_item item_name).

Definition checkout : method t Z :=
  on_shopping_cart ShoppingCart.get_subtotal.

End Store.

(** ** The ranking, in the words of the specification *)

(** Frequency of a hashtag in the cart table: its number of occurrences
    across the hashtag lists of the items of the cart. *)
Definition occurrences (k : string) (l : list string) : nat :=
  length (List.filter (λ h, bool_decide (h = k)) l).

Definition frequency (cart : list Item) (tag : string) : nat :=
  occurrences tag (flat_map hashtags cart).

(** Rate of a candidate: the sum, over the entries of its own hashtag
    list, of the frequency of the entry in the cart table. *)
Definition rate (cart : list Item) (item : Item) : nat :=
  sum_list_with (frequency cart) (hashtags item).

(** [x] may stand in front of [y] in a ranked list: a larger rate first,
    and for equal rates the smaller name first. *)
Definition ranked_before (cart : list Item) (x y : Item) : Prop :=
  rate cart y < rate cart x ∨
  (rate cart x = rate cart y ∧ String.le (name x) (name y)).

(** Composite key of the reference ordering, and its order: rate
    descending, then name ascending. *)
Definition composite_key (cart : list Item) (item : Item) : nat * string :=
  (rate cart item, name item).

Definition composite_leb (k1 k2 : nat * string) : bool :=
  (fst k2 <? fst k1) || ((fst k1 =? fst k2) && String.leb (snd k1) (snd k2)).

(** The reference ranking: one stable sort by the composite key. *)
Definition sort_by_composite_key (cart items_list : list Item) : list Item :=
  sorted composite_leb (composite_key cart) false items_list.

(** ** The two passes of [sort_by_rate] *)

Definition name_before (x y : Item) : bool := String.leb (name x) (name y).

Definition rate_before (cart : list Item) (x y : Item) : bool :=
  Nat.leb (rate cart y) (rate cart x).

(** The list that [sort_by_rate] returns: the two passes of the source. *)
Definition ranking (cart items_list : list Item) : list Item :=
  sort_by (rate_before cart) (sort_by name_before items_list).

(** [x] before [y] for the comparison [b2] of a second pass, the
    comparison [b1] of the first pass deciding between elements that
    [b2] does not separate. *)
Definition lexi {A} (b1 b2 : A → A → bool) (x y : A) : bool :=
  negb (b2 y x) || (b2 x y && b1 x y).

(** ** The invariants of the data model *)

Definition cart_items (self : Store.t) : list Item :=
  ShoppingCart.items (Store._shopping_cart self).

Definition matches (item_name : string) (item : Item) : bool :=
  contains item_name (name item).

Definition with_cart (self : Store.t) (l : list Item) : Store.t :=
  {| Store._items := Store._items self;
     Store._shopping_cart := {| ShoppingCart.items := l |} |}.

Definition catalog_matches (item_name : string) (self : Store.t) : list Item :=
  List.filter (matches item_name) (Store._items self).

Definition cart_matches (item_name : string) (self : Store.t) : list Item :=
  List.filter (matches item_name) (cart_items self).

(** The catalog items that a search keeps, before ranking. *)
Definition name_candidates (item_name : string) (self : Store.t) : list Item :=
  List.filter (λ item, matches item_name item && negb (list_in item (cart_items self)))
              (Store._items self).

Definition hashtag_candidates (hashtag : string) (self : Store.t) : list Item :=
  List.filter (λ item, bool_decide (hashtag ∈ hashtags item)
                       && negb (list_in item (cart_items self)))
              (Store._items self).

(** The sum of the price fields of a list of items. *)
Definition total_price (l : list Item) : Z :=
  foldr (λ item total, (price item + total)%Z) 0%Z l.

Record store_inv (self : Store.t) : Prop := {
  inv_no_duplicates : NoDup (cart_items self);
  inv_cart_in_catalog : ∀ item, item ∈ cart_items self → item ∈ Store._items self
}.

(** The public methods of the store, and a call of one of them: the
    store it leaves and the exception it raised, if any. *)
Inductive operation :=
  | OpGetItems
  | OpSearchByName (item_name : string)
  | OpSearchByHashtag (hashtag : string)
  | OpAddItem (item_name : string)
  | OpRemoveItem (item_name : string)
  | OpCheckout.

Definition perform (op : operation) (self : Store.t) : Store.t * option exception :=
  let forget {A} (r : Store.t * outcome A) : Store.t * option exception :=
    (fst r, match snd r with Returned _ => None | Raised e => Some e end) in
  match op with
  | OpGetItems => forget (Store.get_items self)
  | OpSearchByName n => forget (Store.search_by_name n self)
  | OpSearchByHashtag h => forget (Store.search_by_hashtag h self)
  | OpAddItem n => forget (Store.add_item n self)
  | OpRemoveItem n => forget (Store.remove_item n self)
  | OpCheckout => forget (Store.checkout self)
  end.

(** The states a session can be in: the freshly constructed store, and
    whatever a call of a public method leaves behind. *)
Inductive reachable (loaded : list Item) : Store.t → Prop :=
  | reachable_init : reachable loaded (Store.__init__ loaded)
  | reachable_step op self :
      reachable loaded self → reachable loaded (fst (perform op self)).

(** Some concrete items for running the methods. *)
Definition apple : Item := mkItem "Apple" 3 ["fruit"; "red"] "an apple".
Definition bread : Item := mkItem "Bread" 5 ["bakery"] "a loaf".
Definition pear : Item := mkItem "Pear" 4 ["fruit"] "a pear".
Definition demo_store : Store.t := Store.__init__ [bread; apple; pear].

(** The store with catalog [bread; apple; pear] and the pear in the cart. *)
Definition pear_in_cart : Store.t := with_cart demo_store [pear].

(** The ranking example: a cart item with hashtags [x; x; y] gives [A]
    the rate 3, [B] the rate 2 and [C] the rate 0. *)
Definition item_A : Item := mkItem "A" 1 ["x"; "y"] "".
Definition item_B : Item := mkItem "B" 1 ["x"] "".
Definition item_C : Item := mkItem "C" 1 ["z"] "".
Definition item_D : Item := mkItem "D" 1 ["x"; "x"; "y"] "".
Definition ranking_store : Store.t :=
  with_cart (Store.__init__ [item_C; item_B; item_A; item_D]) [item_D].

Example demo_search :
  let s1 := fst (Store.add_item "Pear" demo_store) in
  Store.search_by_name "" demo_store = (demo_store, Returned [apple; bread; pear])
  ∧ Store.search_by_name "" s1 = (s1, Returned [apple; bread])
  ∧ Store.search_by_name "r" s1 = (s1, Returned [bread])
  ∧ snd (Store.add_item "ea" demo_store) = Raised TooManyMatchesError
  ∧ snd (Store.remove_item "ea" s1) = Returned tt
  ∧ fst (Store.remove_item "ea" s1) = demo_store.
Proof. vm_compute. repeat split. Qed.

Example demo_compute_rate :
  Store.compute_rate [item_A; item_B; item_C] ranking_store
  = (ranking_store, Returned [(3, item_A); (2, item_B); (0, item_C)]).
Proof. vm_compute. reflexivity. Qed.

Example demo_ranking :
  Store.search_by_name "" ranking_store
  = (ranking_store, Returned [item_A; item_B; item_C]).
Proof. vm_compute. reflexivity. Qed.

Example demo_tie_break :
  Store.sort_by_rate [bread; apple] demo_store
  = (demo_store, Returned [apple; bread]).
Proof. vm_compute. reflexivity. Qed.

(** * Properties *)

(** ** The monad: running a method *)

Lemma bind_returned {S A B} (m : method S A) (k : A → method S B) self self' a :
  m self = (self', Returned a) → bind m k self = k a self'.
Proof. unfold bind. intros ->. reflexivity. Qed.

Lemma bind_raised {S A B} (m : method S A) (k : A → method S B) self self' e :
  m self = (self', Raised e) → bind m k self = (self', Raised e).
Proof. unfold bind. intros ->. reflexivity. Qed.

(** ** Stable insertion sort *)

Section SortBy.
Context {A : Type} (before : A → A → bool).

Lemma insort_perm x l : insort before x l ≡ₚ x :: l.
Proof.
  induction l as [|y l IH]; simpl; [reflexivity|].
  destruct (before x y); [reflexivity|].
  rewrite IH. apply Permutation_swap.
Qed.

Lemma sort_by_perm l : sort_by before l ≡ₚ l.
Proof.
  induction l as [|x l IH]; simpl; [reflexivity|].
  rewrite insort_perm. by f_equiv.
Qed.

Lemma elem_of_sort_by x l : x ∈ sort_by before l ↔ x ∈ l.
Proof. by rewrite sort_by_perm. Qed.

(** Stability: the elements of a class whose members may all stand in
    front of each other come out in the order they went in. *)
Lemma insort_filter (p : A → bool) x l :
  (∀ y, p x = true → p y = true → before x y = true) →
  List.filter p (insort before x l) = List.filter p (x :: l).
Proof.
  intros Hp. induction l as [|y l IH]; [reflexivity|].
  cbn [insort]. destruct (before x y) eqn:Hxy; [reflexivity|].
  cbn [List.filter] in *. rewrite IH.
  destruct (p x) eqn:Hx, (p y) eqn:Hy; try reflexivity.
  rewrite Hp in Hxy; done.
Qed.

Lemma sort_by_stable (p : A → bool) l :
  (∀ x y, p x = true → p y = true → before x y = true) →
  List.filter p (sort_by before l) = List.filter p l.
Proof.
  intros Hp. induction l as [|x l IH]; [reflexivity|].
  cbn [sort_by foldr]. rewrite insort_filter by (intros; by apply Hp).
  cbn [List.filter]. fold (sort_by before l). by rewrite IH.
Qed.

Hypothesis before_total : ∀ x y, before x y = true ∨ before y x = true.
Hypothesis before_trans :
  ∀ x y z, before x y = true → before y z = true → before x z = true.

Lemma insort_sorted x l :
  StronglySorted (λ a b, before a b = true) l →
  StronglySorted (λ a b, before a b = true) (insort before x l).
Proof.
  induction 1 as [|y l Hl IH Hy]; simpl.
  - by repeat constructor.
  - destruct (before x y) eqn:Hxy.
    + constructor; [by constructor|].
      constructor; [done|].
      eapply Forall_impl; [exact Hy|]. intros z Hz. by eapply before_trans.
    + constructor; [exact IH|].
      apply Forall_forall. intros z Hz.
      rewrite insort_perm in Hz. apply elem_of_cons in Hz as [->|Hz].
      * destruct (before_total x y); congruence.
      * by eapply Forall_forall in Hy.
Qed.

Lemma sort_by_sorted l :
  StronglySorted (λ a b, before a b = true) (sort_by before l).
Proof.
  induction l as [|x l IH]; simpl; [constructor|]. by apply insort_sorted.
Qed.
End SortBy.

Lemma insort_ext {A} (b1 b2 : A → A → bool) x l :
  (∀ y, b1 x y = b2 x y) → insort b1 x l = insort b2 x l.
Proof.
  intros H. induction l as [|y l IH]; simpl; [done|]. by rewrite H, IH.
Qed.

Lemma sort_by_ext {A} (b1 b2 : A → A → bool) l :
  (∀ x y, b1 x y = b2 x y) → sort_by b1 l = sort_by b2 l.
Proof.
  intros H. induction l as [|x l IH]; simpl; [done|].
  fold (sort_by b1 l) (sort_by b2 l). rewrite IH. by apply insort_ext.
Qed.

(** Sorting the images under [f] is sorting the arguments by the
    comparison pulled back along [f]. *)
Lemma insort_map {A B} (f : A → B) (before : B → B → bool) x l :
  insort before (f x) (map f l) = map f (insort (λ a b, before (f a) (f b)) x l).
Proof.
  induction l as [|y l IH]; simpl; [done|].
  destruct (before (f x) (f y)); simpl; [done|]. by rewrite IH.
Qed.

Lemma sort_by_map {A B} (f : A → B) (before : B → B → bool) l :
  sort_by before (map f l) = map f (sort_by (λ a b, before (f a) (f b)) l).
Proof.
  induction l as [|x l IH]; simpl; [done|].
  fold (sort_by before (map f l)). rewrite IH. apply insort_map.
Qed.

(** ** A stable sort after a stable sort is the lexicographic sort *)

Section TwoPass.
Context {A : Type} (b1 b2 : A → A → bool).
Local Abbreviation lexi := (lexi b1 b2) (only parsing).

Hypothesis b1_total : ∀ x y, b1 x y = true ∨ b1 y x = true.
Hypothesis b1_trans : ∀ x y z, b1 x y = true → b1 y z = true → b1 x z = true.
Hypothesis b2_total : ∀ x y, b2 x y = true ∨ b2 y x = true.
Hypothesis b2_trans : ∀ x y z, b2 x y = true → b2 y z = true → b2 x z = true.

Lemma lexi_of_first x y : b1 x y = true → lexi x y = b2 x y.
Proof.
  unfold lexi. intros ->. rewrite andb_true_r.
  destruct (b2 x y) eqn:Hxy; [by rewrite orb_true_r|].
  destruct (b2_total x y) as [?| ->]; [congruence|done].
Qed.

Lemma lexi_of_not_first x y : b1 x y = false → lexi x y = negb (b2 y x).
Proof. unfold lexi. intros ->. by rewrite andb_false_r, orb_false_r. Qed.

Lemma lexi_second x y : lexi x y = true → b2 x y = true.
Proof.
  unfold lexi. intros [H|H]%orb_true_iff.
  - destruct (b2_total x y) as [?|Hyx]; [done|]. by rewrite Hyx in H.
  - by apply andb_true_iff in H as [? _].
Qed.

Lemma lexi_false_second x y : lexi x y = false → b2 y x = true.
Proof.
  unfold lexi. intros [H _]%orb_false_iff. by apply negb_false_iff in H.
Qed.

Lemma insort_second_is_lexi x l :
  Forall (λ z, b1 x z = true) l → insort b2 x l = insort lexi x l.
Proof.
  induction 1 as [|z l Hz _ IH]; simpl; [done|].
  rewrite (lexi_of_first _ _ Hz), IH. done.
Qed.

Lemma insort_second_lexi_comm x y l :
  b1 x y = false →
  insort b2 y (insort lexi x l) = insort lexi x (insort b2 y l).
Proof.
  intros Hxy. pose proof (lexi_of_not_first _ _ Hxy) as Hlex.
  induction l as [|z l IH]; simpl.
  - rewrite Hlex. by destruct (b2 y x).
  - destruct (lexi x z) eqn:Hxz, (b2 y z) eqn:Hyz; simpl.
    + rewrite Hlex, Hxz, Hyz. by destruct (b2 y x).
    + assert (b2 y x = false) as ->.
      { destruct (b2 y x) eqn:Hyx; [|done].
        rewrite (b2_trans y x z) in Hyz; [done..|by apply lexi_second]. }
      by rewrite Hyz, Hxz.
    + rewrite Hyz, Hlex.
      rewrite (b2_trans y z x); [|done|by apply lexi_false_second].
      simpl. by rewrite Hxz.
    + by rewrite Hyz, Hxz, IH.
Qed.

Lemma sort_by_second_insort_first x l :
  StronglySorted (λ a b, b1 a b = true) l →
  sort_by b2 (insort b1 x l) = insort lexi x (sort_by b2 l).
Proof.
  induction 1 as [|y l Hl IH Hy]; [done|].
  cbn [insort]. destruct (b1 x y) eqn:Hxy.
  - change (sort_by b2 (x :: y :: l)) with (insort b2 x (sort_by b2 (y :: l))).
    apply insort_second_is_lexi, Forall_forall. intros z Hz.
    apply elem_of_sort_by, elem_of_cons in Hz as [->|Hz]; [done|].
    eapply b1_trans; [exact Hxy|]. by eapply Forall_forall in Hy.
  - change (sort_by b2 (y :: insort b1 x l))
      with (insort b2 y (sort_by b2 (insort b1 x l))).
    rewrite IH. by apply insort_second_lexi_comm.
Qed.

Theorem sort_by_two_pass l : sort_by b2 (sort_by b1 l) = sort_by lexi l.
Proof.
  induction l as [|x l IH]; [done|].
  change (sort_by b1 (x :: l)) with (insort b1 x (sort_by b1 l)).
  rewrite sort_by_second_insort_first by (by apply sort_by_sorted).
  by rewrite IH.
Qed.
End TwoPass.

(** ** Built-ins *)

Lemma contains_empty b : contains "" b = true.
Proof. by destruct b. Qed.

Lemma list_in_spec x l : list_in x l = true ↔ x ∈ l.
Proof. unfold list_in. apply bool_decide_eq_true. Qed.

Lemma list_in_false x l : list_in x l = false ↔ x ∉ l.
Proof. unfold list_in. apply bool_decide_eq_false. Qed.

(** [l.remove(x)] takes out the first occurrence of [x]. *)
Lemma list_remove_first x l1 l2 :
  x ∉ l1 → list_remove x (l1 ++ x :: l2) = Some (l1 ++ l2).
Proof.
  induction l1 as [|y l1 IH]; intros Hx; simpl.
  - by rewrite decide_True.
  - apply not_elem_of_cons in Hx as [Hxy Hx].
    rewrite decide_False by done. by rewrite IH.
Qed.

Lemma foldl_add_nat a l : foldl Nat.add a l = a + sum_list l.
Proof.
  revert a. induction l as [|x l IH]; intros a; simpl; [lia|].
  rewrite IH. lia.
Qed.

Lemma sum_nat_sum_list l : sum_nat l = sum_list l.
Proof. unfold sum_nat. by rewrite foldl_add_nat. Qed.

Lemma foldl_add_Z a l : foldl Z.add a l = (a + foldr Z.add 0 l)%Z.
Proof.
  revert a. induction l as [|x l IH]; intros a; simpl; [lia|].
  rewrite IH. lia.
Qed.

Lemma sum_Z_cons x l : sum_Z (x :: l) = (x + sum_Z l)%Z.
Proof. unfold sum_Z. simpl. rewrite !foldl_add_Z. lia. Qed.

Lemma sum_Z_app l1 l2 : sum_Z (l1 ++ l2) = (sum_Z l1 + sum_Z l2)%Z.
Proof.
  induction l1 as [|x l1 IH]; simpl; [done|].
  rewrite !sum_Z_cons, IH. lia.
Qed.

Lemma Counter_get_insert c h n k :
  Counter_get (<[h := n]> c) k = if decide (h = k) then n else Counter_get c k.
Proof. unfold Counter_get. rewrite lookup_insert. by destruct (decide (h = k)). Qed.

Lemma Counter_get_foldl c l k :
  Counter_get (foldl (λ c k, <[k := S (Counter_get c k)]> c) c l) k
  = Counter_get c k + occurrences k l.
Proof.
  unfold occurrences. revert c.
  induction l as [|h l IH]; intros c; simpl; [lia|].
  rewrite IH, Counter_get_insert.
  destruct (decide (h = k)) as [->|Hne].
  - rewrite bool_decide_eq_true_2 by done. simpl. lia.
  - by rewrite bool_decide_eq_false_2 by done.
Qed.

(** The counter holds, for every key, its number of occurrences. *)
Lemma Counter_get_Counter l k : Counter_get (Counter l) k = occurrences k l.
Proof. unfold Counter. by rewrite Counter_get_foldl. Qed.

Lemma occurrences_absent k l : k ∉ l → occurrences k l = 0.
Proof.
  unfold occurrences. induction l as [|h l IH]; intros Hk; simpl; [done|].
  apply not_elem_of_cons in Hk as [Hne Hk].
  rewrite bool_decide_eq_false_2 by done. by apply IH.
Qed.

(** The sum that [compute_rate] forms for one item: looking up only the
    hashtags present in the cart gives the sum of all the lookups. *)
Lemma rate_numbers_sum tags all :
  sum_nat (map (Counter_get (Counter all))
               (List.filter (λ tag, bool_decide (tag ∈ all)) tags))
  = sum_list_with (λ tag, occurrences tag all) tags.
Proof.
  rewrite sum_nat_sum_list.
  induction tags as [|tag tags IH]; simpl; [done|].
  destruct (bool_decide (tag ∈ all)) eqn:Hin; simpl.
  - by rewrite IH, Counter_get_Counter.
  - apply bool_decide_eq_false in Hin.
    by rewrite IH, occurrences_absent.
Qed.

(** ** What the methods compute *)

Lemma cart_add_item_run item cart :
  ShoppingCart.add_item item cart =
    if list_in item (ShoppingCart.items cart)
    then (cart, Raised ItemAlreadyExistsError)
    else ({| ShoppingCart.items := ShoppingCart.items cart ++ [item] |},
          Returned tt).
Proof.
  unfold ShoppingCart.add_item, bind, get; simpl.
  by destruct (list_in item (ShoppingCart.items cart)).
Qed.

Lemma cart_remove_item_loop_none item_name rest cart :
  Forall (λ i, matches item_name i = false) rest →
  ShoppingCart.remove_item_loop item_name rest cart
  = (cart, Raised ItemNotExistError).
Proof.
  induction 1 as [|i rest Hi _ IH]; simpl; [done|].
  unfold matches in Hi. by rewrite Hi.
Qed.

Lemma cart_remove_item_loop_found item_name skipped item rest cart :
  Forall (λ i, matches item_name i = false) skipped →
  matches item_name item = true →
  ShoppingCart.remove_item_loop item_name (skipped ++ item :: rest) cart
  = match list_remove item (ShoppingCart.items cart) with
    | Some l => ({| ShoppingCart.items := l |}, Returned tt)
    | None => (cart, Raised ValueError)
    end.
Proof.
  intros Hskip Hitem. induction Hskip as [|i skipped Hi _ IH]; simpl.
  - unfold matches in Hitem. rewrite Hitem. unfold bind, get; simpl.
    by destruct (list_remove item (ShoppingCart.items cart)).
  - unfold matches in Hi. by rewrite Hi.
Qed.

(** A list either holds no match, or splits at its first match. *)
Lemma first_match_split (p : Item → bool) l :
  Forall (λ i, p i = false) l ∨
  ∃ l1 item l2,
    l = l1 ++ item :: l2 ∧ Forall (λ i, p i = false) l1 ∧ p item = true.
Proof.
  induction l as [|x l [IH|(l1 & item & l2 & -> & H1 & Hp)]].
  - left. constructor.
  - destruct (p x) eqn:Hx.
    + right. exists [], x, l. by repeat split.
    + left. by constructor.
  - destruct (p x) eqn:Hx.
    + right. exists [], x, (l1 ++ item :: l2). by repeat split.
    + right. exists (x :: l1), item, l2. repeat split; [|done]. by constructor.
Qed.

Lemma filter_no_match (p : Item → bool) l :
  Forall (λ i, p i = false) l ↔ List.filter p l = [].
Proof.
  induction l as [|x l IH]; simpl.
  - split; [done|constructor].
  - destruct (p x) eqn:Hx.
    + split; [|done]. intros H. apply Forall_cons in H as [? _]. congruence.
    + rewrite <- IH. split; [by intros [_ ?]%Forall_cons|by constructor].
Qed.

Lemma cart_remove_item_none item_name cart :
  Forall (λ i, matches item_name i = false) (ShoppingCart.items cart) →
  ShoppingCart.remove_item item_name cart = (cart, Raised ItemNotExistError).
Proof.
  intros H. unfold ShoppingCart.remove_item, bind, get; simpl.
  by apply cart_remove_item_loop_none.
Qed.

Lemma cart_remove_item_found item_name l1 item l2 :
  Forall (λ i, matches item_name i = false) l1 →
  matches item_name item = true →
  ShoppingCart.remove_item item_name {| ShoppingCart.items := l1 ++ item :: l2 |}
  = ({| ShoppingCart.items := l1 ++ l2 |}, Returned tt).
Proof.
  intros H1 Hitem. unfold ShoppingCart.remove_item, bind, get; simpl.
  rewrite cart_remove_item_loop_found by done. simpl.
  rewrite list_remove_first; [done|].
  intros Hin. eapply Forall_forall in H1; [|exact Hin]. congruence.
Qed.

Lemma name_before_total x y : name_before x y = true ∨ name_before y x = true.
Proof. apply String.leb_total. Qed.

Lemma name_before_trans x y z :
  name_before x y = true → name_before y z = true → name_before x z = true.
Proof.
  unfold name_before. intros H1%Is_true_true H2%Is_true_true.
  apply Is_true_true. change (String.le (name x) (name z)).
  by etrans; [exact H1|exact H2].
Qed.

Lemma rate_before_total cart x y :
  rate_before cart x y = true ∨ rate_before cart y x = true.
Proof. unfold rate_before. rewrite !Nat.leb_le. lia. Qed.

Lemma rate_before_trans cart x y z :
  rate_before cart x y = true → rate_before cart y z = true →
  rate_before cart x z = true.
Proof. unfold rate_before. rewrite !Nat.leb_le. lia. Qed.

Lemma compute_rate_run items_list self :
  Store.compute_rate items_list self
  = (self, Returned (map (λ item, (rate (cart_items self) item, item)) items_list)).
Proof.
  unfold Store.compute_rate, bind, get, ret; simpl. do 2 f_equal.
  apply map_ext. intros item. by rewrite rate_numbers_sum.
Qed.

Lemma sort_by_rate_run items_list self :
  Store.sort_by_rate items_list self
  = (self, Returned (ranking (cart_items self) items_list)).
Proof.
  unfold Store.sort_by_rate.
  erewrite bind_returned by apply compute_rate_run.
  unfold ret, sorted, ranking. do 2 f_equal.
  rewrite sort_by_map, map_map. simpl. rewrite map_id.
  apply sort_by_ext. by intros x y.
Qed.

Lemma search_by_name_run item_name self :
  Store.search_by_name item_name self
  = (self, Returned (ranking (cart_items self) (name_candidates item_name self))).
Proof.
  unfold Store.search_by_name, bind, get, Store.on_shopping_cart; simpl.
  destruct self as [catalog cart]; simpl. apply sort_by_rate_run.
Qed.

Lemma search_by_hashtag_run hashtag self :
  Store.search_by_hashtag hashtag self
  = (self, Returned (ranking (cart_items self) (hashtag_candidates hashtag self))).
Proof.
  unfold Store.search_by_hashtag, bind, get, Store.on_shopping_cart; simpl.
  destruct self as [catalog cart]; simpl. apply sort_by_rate_run.
Qed.

Lemma get_items_run self :
  Store.get_items self = (self, Returned (Store._items self)).
Proof. done. Qed.

Lemma checkout_run self :
  Store.checkout self = (self, Returned (sum_Z (map price (cart_items self)))).
Proof. by destruct self. Qed.

(** ** The ranking *)

Lemma ranking_perm cart items_list : ranking cart items_list ≡ₚ items_list.
Proof. unfold ranking. by rewrite !sort_by_perm. Qed.

Lemma lexi_ranked_before cart x y :
  lexi name_before (rate_before cart) x y = true ↔ ranked_before cart x y.
Proof.
  unfold lexi, rate_before, name_before, ranked_before, String.le.
  rewrite Is_true_true.
  destruct (Nat.leb_spec (rate cart x) (rate cart y)),
           (Nat.leb_spec (rate cart y) (rate cart x)); simpl;
    (split; [intros ?|intros [?|[? ?]]]); try lia; try done;
    try (right; split; [lia|done]); try (left; lia).
Qed.

Lemma composite_is_lexi cart x y :
  goes_before composite_leb (composite_key cart) false x y
  = lexi name_before (rate_before cart) x y.
Proof.
  unfold goes_before, composite_leb, composite_key, lexi, rate_before,
    name_before; simpl.
  destruct (Nat.ltb_spec (rate cart y) (rate cart x)),
           (Nat.eqb_spec (rate cart x) (rate cart y)),
           (Nat.leb_spec (rate cart x) (rate cart y)),
           (Nat.leb_spec (rate cart y) (rate cart x)); simpl; try lia; done.
Qed.

Lemma ranking_two_pass cart items_list :
  ranking cart items_list
  = sort_by (lexi name_before (rate_before cart)) items_list.
Proof.
  unfold ranking. apply sort_by_two_pass.
  - apply name_before_total.
  - apply name_before_trans.
  - apply rate_before_total.
  - apply rate_before_trans.
Qed.

Lemma ranking_composite cart items_list :
  ranking cart items_list = sort_by_composite_key cart items_list.
Proof.
  rewrite ranking_two_pass. unfold sort_by_composite_key, sorted.
  apply sort_by_ext. intros x y. by rewrite composite_is_lexi.
Qed.

Lemma ranked_before_total cart x y :
  ranked_before cart x y ∨ ranked_before cart y x.
Proof.
  unfold ranked_before.
  destruct (String.le_total (name x) (name y));
    destruct (Nat.lt_trichotomy (rate cart x) (rate cart y)) as [?|[?|?]];
    auto with lia.
Qed.

Lemma ranked_before_trans cart x y z :
  ranked_before cart x y → ranked_before cart y z → ranked_before cart x z.
Proof.
  unfold ranked_before. intros [?|[? ?]] [?|[? ?]]; try (left; lia).
  right. split; [lia|]. by etrans.
Qed.

Lemma ranking_sorted cart items_list :
  StronglySorted (ranked_before cart) (ranking cart items_list).
Proof.
  rewrite ranking_two_pass.
  set (b := lexi name_before (rate_before cart)).
  assert (StronglySorted (λ x y, b x y = true) (sort_by b items_list)) as H.
  { apply sort_by_sorted.
    - intros x y. unfold b. rewrite !lexi_ranked_before.
      apply ranked_before_total.
    - intros x y z. unfold b. rewrite !lexi_ranked_before.
      apply ranked_before_trans. }
  induction H as [|x l _ IH Hx]; constructor; [done|].
  eapply Forall_impl; [exact Hx|]. intros y. apply lexi_ranked_before.
Qed.

(** C1: for every catalog, cart and list of candidates, [compute_rate]
    pairs each candidate with the sum, over the entries of its own
    hashtag list, of the entry's number of occurrences in the hashtag
    lists of the cart, and [sort_by_rate] returns the candidates
    rearranged so that a larger rate comes first and, at equal rates,
    the smaller name (in case-sensitive lexicographic order) comes first;
    both searches return what [sort_by_rate] returns on their candidates. *)
Theorem sort_by_rate_ranks (self : Store.t) (items_list : list Item) :
  Store.compute_rate items_list self
    = (self, Returned (map (λ item, (rate (cart_items self) item, item)) items_list))
  ∧ (∃ ranked,
       Store.sort_by_rate items_list self = (self, Returned ranked)
       ∧ ranked ≡ₚ items_list
       ∧ StronglySorted (ranked_before (cart_items self)) ranked)
  ∧ (∀ item_name,
       Store.search_by_name item_name self
       = Store.sort_by_rate (name_candidates item_name self) self)
  ∧ (∀ hashtag,
       Store.search_by_hashtag hashtag self
       = Store.sort_by_rate (hashtag_candidates hashtag self) self).
Proof.
  split; [apply compute_rate_run|]. split; [|split].
  - exists (ranking (cart_items self) items_list).
    split; [apply sort_by_rate_run|].
    split; [apply ranking_perm|apply ranking_sorted].
  - intros item_name. by rewrite search_by_name_run, sort_by_rate_run.
  - intros hashtag. by rewrite search_by_hashtag_run, sort_by_rate_run.
Qed.

(** C7: the two stable passes of [sort_by_rate], by name ascending and
    then by rate descending, return the list that one stable sort by the
    composite key (rate descending, name ascending) returns. *)
Theorem sort_by_rate_is_composite_sort (self : Store.t) (items_list : list Item) :
  Store.sort_by_rate items_list self
  = (self, Returned (sort_by_composite_key (cart_items self) items_list)).
Proof. by rewrite sort_by_rate_run, ranking_composite. Qed.

(** ** Adding and removing through the store *)

Lemma with_cart_same self : with_cart self (cart_items self) = self.
Proof. by destruct self as [catalog [cart]]. Qed.

Lemma on_shopping_cart_add_item item self :
  Store.on_shopping_cart (ShoppingCart.add_item item) self =
    if list_in item (cart_items self)
    then (self, Raised ItemAlreadyExistsError)
    else (with_cart self (cart_items self ++ [item]), Returned tt).
Proof.
  unfold Store.on_shopping_cart. rewrite cart_add_item_run.
  destruct self as [catalog [cart]]; unfold cart_items, with_cart; simpl.
  by destruct (list_in item cart).
Qed.

Lemma add_item_run item_name self :
  Store.add_item item_name self =
    match List.filter (matches item_name) (Store._items self) with
    | [] => (self, Raised ItemNotExistError)
    | [item] => Store.on_shopping_cart (ShoppingCart.add_item item) self
    | _ :: _ :: _ => (self, Raised TooManyMatchesError)
    end.
Proof.
  unfold Store.add_item, bind, get, matches; simpl.
  by destruct (List.filter _ (Store._items self)) as [|a [|b l]].
Qed.

Lemma remove_item_run item_name self :
  Store.remove_item item_name self =
    if 1 <? length (List.filter (matches item_name) (cart_items self))
    then (self, Raised TooManyMatchesError)
    else Store.on_shopping_cart (ShoppingCart.remove_item item_name) self.
Proof.
  unfold Store.remove_item, bind, get, matches, cart_items; simpl.
  by destruct (1 <? _).
Qed.

Lemma on_shopping_cart_remove_none item_name self :
  Forall (λ i, matches item_name i = false) (cart_items self) →
  Store.on_shopping_cart (ShoppingCart.remove_item item_name) self
  = (self, Raised ItemNotExistError).
Proof.
  intros H. unfold Store.on_shopping_cart.
  rewrite cart_remove_item_none by done. by destruct self.
Qed.

Lemma on_shopping_cart_remove_found item_name self l1 item l2 :
  cart_items self = l1 ++ item :: l2 →
  Forall (λ i, matches item_name i = false) l1 →
  matches item_name item = true →
  Store.on_shopping_cart (ShoppingCart.remove_item item_name) self
  = (with_cart self (l1 ++ l2), Returned tt).
Proof.
  intros Hcart H1 Hitem. unfold Store.on_shopping_cart.
  destruct self as [catalog [cart]]; unfold cart_items in Hcart; simpl in *.
  subst cart. by rewrite cart_remove_item_found.
Qed.

Lemma filter_length_split (p : Item → bool) l1 item l2 :
  Forall (λ i, p i = false) l1 → p item = true →
  length (List.filter p (l1 ++ item :: l2)) = S (length (List.filter p l2)).
Proof.
  intros H1 Hitem. rewrite List.filter_app; simpl. rewrite Hitem.
  apply filter_no_match in H1. by rewrite H1.
Qed.

(** What [Store.remove_item] does, by the number of matches in the cart. *)
Lemma remove_item_cases item_name self :
  (Forall (λ i, matches item_name i = false) (cart_items self)
   ∧ Store.remove_item item_name self = (self, Raised ItemNotExistError))
  ∨ (∃ l1 item l2,
       cart_items self = l1 ++ item :: l2
       ∧ Forall (λ i, matches item_name i = false) l1
       ∧ matches item_name item = true
       ∧ Forall (λ i, matches item_name i = false) l2
       ∧ Store.remove_item item_name self = (with_cart self (l1 ++ l2), Returned tt))
  ∨ (1 < length (List.filter (matches item_name) (cart_items self))
     ∧ Store.remove_item item_name self = (self, Raised TooManyMatchesError)).
Proof.
  rewrite remove_item_run.
  destruct (first_match_split (matches item_name) (cart_items self))
    as [Hnone|(l1 & item & l2 & Hcart & H1 & Hitem)].
  - left. split; [done|].
    pose proof Hnone as Hnil. apply filter_no_match in Hnil. rewrite Hnil. simpl.
    by apply on_shopping_cart_remove_none.
  - right. rewrite Hcart, filter_length_split by done.
    destruct (List.filter (matches item_name) l2) as [|j found] eqn:Hl2; simpl.
    + left. exists l1, item, l2. repeat split; try done.
      * by apply filter_no_match.
      * by eapply on_shopping_cart_remove_found.
    + right. split; [lia|done].
Qed.

(** C2: [Store.add_item] raises [ItemNotExistError] exactly when no
    catalog item has the fragment in its name, raises
    [TooManyMatchesError] exactly when more than one has, and with one
    match hands that item to [ShoppingCart.add_item]: the call raises
    [ItemAlreadyExistsError] when the item is in the cart, and appends the
    item to the cart otherwise. *)
Theorem add_item_outcomes (self : Store.t) (item_name : string) :
  (result_of (Store.add_item item_name self) = Raised ItemNotExistError
   ↔ length (catalog_matches item_name self) = 0)
  ∧ (result_of (Store.add_item item_name self) = Raised TooManyMatchesError
     ↔ 1 < length (catalog_matches item_name self))
  ∧ (length (catalog_matches item_name self) = 1 →
     ∃ item,
       catalog_matches item_name self = [item]
       ∧ Store.add_item item_name self
         = Store.on_shopping_cart (ShoppingCart.add_item item) self
       ∧ (item ∈ cart_items self →
          Store.add_item item_name self = (self, Raised ItemAlreadyExistsError))
       ∧ (item ∉ cart_items self →
          Store.add_item item_name self
          = (with_cart self (cart_items self ++ [item]), Returned tt))).
Proof.
  rewrite add_item_run. unfold catalog_matches, result_of.
  destruct (List.filter (matches item_name) (Store._items self))
    as [|item [|item' found]]; simpl.
  - split; [done|]. split; [split; [done|lia]|done].
  - pose proof (on_shopping_cart_add_item item self) as Hadd.
    destruct (list_in item (cart_items self)) eqn:Hin; rewrite Hadd; simpl.
    + apply list_in_spec in Hin.
      split; [split; [done|lia]|]. split; [split; [done|lia]|].
      intros _. exists item. by repeat split.
    + apply list_in_false in Hin.
      split; [split; [done|lia]|]. split; [split; [done|lia]|].
      intros _. exists item. by repeat split.
  - split; [split; [done|lia]|]. split; [split; [lia|done]|lia].
Qed.

(** C3: [Store.remove_item] looks at the cart only; it raises
    [TooManyMatchesError] when more than one cart item has the fragment
    in its name, and otherwise, without looking at the zero-match case,
    calls [ShoppingCart.remove_item] with the same fragment, which takes
    out the first cart item whose name has the fragment, or raises
    [ItemNotExistError] when there is none; a raising call leaves the
    store as it was.  So the call returns exactly when one cart item
    matches, and the store is then the same catalog with that item, the
    first and only match, taken out of the cart and the other cart items
    in their order; it raises [ItemNotExistError] exactly when none
    matches and [TooManyMatchesError] exactly when more than one does. *)
Theorem remove_item_outcomes (self : Store.t) (item_name : string) :
  (1 < length (cart_matches item_name self) →
   Store.remove_item item_name self = (self, Raised TooManyMatchesError))
  ∧ (length (cart_matches item_name self) ≤ 1 →
     Store.remove_item item_name self
     = Store.on_shopping_cart (ShoppingCart.remove_item item_name) self)
  ∧ (∀ cart,
       Forall (λ i, matches item_name i = false) (ShoppingCart.items cart) →
       ShoppingCart.remove_item item_name cart = (cart, Raised ItemNotExistError))
  ∧ (∀ l1 item l2,
       Forall (λ i, matches item_name i = false) l1 →
       matches item_name item = true →
       ShoppingCart.remove_item item_name {| ShoppingCart.items := l1 ++ item :: l2 |}
       = ({| ShoppingCart.items := l1 ++ l2 |}, Returned tt))
  ∧ (length (cart_matches item_name self) = 0 →
     Store.remove_item item_name self = (self, Raised ItemNotExistError))
  ∧ (∀ e, result_of (Store.remove_item item_name self) = Raised e →
       state_after (Store.remove_item item_name self) = self
       ∧ (e = TooManyMatchesError ∨ e = ItemNotExistError))
  ∧ (∀ other,
       cart_items other = cart_items self →
       result_of (Store.remove_item item_name other)
       = result_of (Store.remove_item item_name self)
       ∧ cart_items (state_after (Store.remove_item item_name other))
         = cart_items (state_after (Store.remove_item item_name self)))
  ∧ (length (cart_matches item_name self) = 1 →
     ∃ l1 item l2,
       cart_items self = l1 ++ item :: l2
       ∧ Forall (λ i, matches item_name i = false) l1
       ∧ matches item_name item = true
       ∧ Forall (λ i, matches item_name i = false) l2
       ∧ Store.remove_item item_name self
         = (with_cart self (l1 ++ l2), Returned tt))
  ∧ (result_of (Store.remove_item item_name self) = Returned tt
     ↔ length (cart_matches item_name self) = 1)
  ∧ (result_of (Store.remove_item item_name self) = Raised ItemNotExistError
     ↔ length (cart_matches item_name self) = 0)
  ∧ (result_of (Store.remove_item item_name self) = Raised TooManyMatchesError
     ↔ 1 < length (cart_matches item_name self)).
Proof.
  unfold cart_matches.
  split; [|split; [|split; [|split; [|split; [|split; [|split; [|split]]]]]]].
  - intros Hmany. rewrite remove_item_run.
    by apply Nat.ltb_lt in Hmany as ->.
  - intros Hfew. rewrite remove_item_run.
    by apply Nat.ltb_ge in Hfew as ->.
  - apply cart_remove_item_none.
  - apply cart_remove_item_found.
  - intros Hzero. apply length_zero_iff_nil in Hzero.
    rewrite remove_item_run, Hzero. simpl.
    by apply on_shopping_cart_remove_none, filter_no_match.
  - intros e.
    destruct (remove_item_cases item_name self)
      as [[_ ->]|[(l1 & item & l2 & _ & _ & _ & _ & ->)|[_ ->]]];
      unfold result_of, state_after; simpl; intros He; simplify_eq; auto.
  - intros other Hsame. rewrite !remove_item_run, Hsame.
    destruct (1 <? _); [done|].
    unfold Store.on_shopping_cart, cart_items, state_after, result_of in *.
    destruct other as [c1 [i1]], self as [c2 [i2]]; simpl in *; subst i2.
    by destruct (ShoppingCart.remove_item item_name _).
  - intros Hone.
    destruct (remove_item_cases item_name self)
      as [[Hnone _]|[(l1 & item & l2 & Hcart & H1 & Hitem & H2 & Hrun)
                    |[Hmany _]]].
    + apply filter_no_match in Hnone. by rewrite Hnone in Hone.
    + by exists l1, item, l2.
    + lia.
  - destruct (remove_item_cases item_name self)
      as [[Hnone ->]|[(l1 & item & l2 & Hcart & H1 & Hitem & H2 & ->)
                     |[Hmany ->]]]; unfold result_of; simpl.
    + apply filter_no_match in Hnone. rewrite Hnone. simpl.
      split; [split; [done|lia]|]. split; [done|]. split; [done|lia].
    + rewrite Hcart, filter_length_split by done.
      apply filter_no_match in H2. rewrite H2. simpl.
      split; [done|]. split; [split; [done|lia]|]. split; [done|lia].
    + split; [split; [done|lia]|]. split; [split; [done|lia]|]. done.
Qed.

(** ** The searches *)

Lemma elem_of_filter_bool (p : Item → bool) x l :
  x ∈ List.filter p l ↔ x ∈ l ∧ p x = true.
Proof. rewrite !list_elem_of_In. apply filter_In. Qed.


(** C10: the queries [search_by_name], [search_by_hashtag], [get_items]
    and [checkout] leave the store, catalog and cart, as it was. *)
Theorem queries_leave_store_unchanged (self : Store.t) :
  (∀ item_name, state_after (Store.search_by_name item_name self) = self)
  ∧ (∀ hashtag, state_after (Store.search_by_hashtag hashtag self) = self)
  ∧ state_after (Store.get_items self) = self
  ∧ state_after (Store.checkout self) = self.
Proof.
  split; [|split; [|split]].
  - intros item_name. by rewrite search_by_name_run.
  - intros hashtag. by rewrite search_by_hashtag_run.
  - by rewrite get_items_run.
  - by rewrite checkout_run.
Qed.

(** ** The cart *)

(** C8: [ShoppingCart.add_item] on an item that is in the cart raises
    [ItemAlreadyExistsError] and leaves the cart, its length included, as
    it was; on an item that is not in the cart it appends the item at the
    end, the other members keeping their order; so adding the same item a
    second time fails. *)
Theorem cart_add_item_outcomes (item : Item) (cart : ShoppingCart.t) :
  (item ∈ ShoppingCart.items cart →
   ShoppingCart.add_item item cart = (cart, Raised ItemAlreadyExistsError))
  ∧ (item ∉ ShoppingCart.items cart →
     ShoppingCart.add_item item cart
     = ({| ShoppingCart.items := ShoppingCart.items cart ++ [item] |}, Returned tt))
  ∧ (∀ cart',
       ShoppingCart.add_item item cart = (cart', Returned tt) →
       ShoppingCart.add_item item cart' = (cart', Raised ItemAlreadyExistsError)
       ∧ result_of (bind (ShoppingCart.add_item item)
                         (λ _, ShoppingCart.__len__) cart')
         = Raised ItemAlreadyExistsError).
Proof.
  rewrite cart_add_item_run.
  destruct (list_in item (ShoppingCart.items cart)) eqn:Hin.
  - apply list_in_spec in Hin. split; [done|]. split; [done|].
    intros cart' [=].
  - apply list_in_false in Hin. split; [done|]. split; [done|].
    intros cart' [= <-].
    assert (ShoppingCart.add_item item
              {| ShoppingCart.items := ShoppingCart.items cart ++ [item] |}
            = ({| ShoppingCart.items := ShoppingCart.items cart ++ [item] |},
               Raised ItemAlreadyExistsError)) as Hagain.
    { rewrite cart_add_item_run; simpl.
      replace (list_in item (ShoppingCart.items cart ++ [item])) with true; [done|].
      symmetry. apply list_in_spec, elem_of_app. right. by apply list_elem_of_singleton. }
    split; [exact Hagain|].
    by erewrite bind_raised by exact Hagain.
Qed.

Lemma sum_Z_prices l : sum_Z (map price l) = total_price l.
Proof.
  induction l as [|item l IH]; simpl; [done|]. by rewrite sum_Z_cons, IH.
Qed.

(** C9: [checkout] returns what [get_subtotal] of the cart returns, the
    sum of the prices of the items in the cart; this is 0 for the empty
    cart, and the price of [i] for the cart obtained by adding [i] to the
    empty cart. *)
Theorem checkout_is_sum_of_prices (self : Store.t) :
  Store.checkout self = (self, Returned (total_price (cart_items self)))
  ∧ result_of (Store.checkout self)
    = result_of (ShoppingCart.get_subtotal (Store._shopping_cart self))
  ∧ (∀ loaded, result_of (Store.checkout (Store.__init__ loaded)) = Returned 0%Z)
  ∧ result_of (ShoppingCart.get_subtotal ShoppingCart.__init__) = Returned 0%Z
  ∧ (∀ i, result_of (bind (ShoppingCart.add_item i)
                           (λ _, ShoppingCart.get_subtotal)
                           ShoppingCart.__init__)
          = Returned (price i)).
Proof.
  split; [|split; [|split; [|split]]].
  - by rewrite checkout_run, sum_Z_prices.
  - by destruct self.
  - done.
  - done.
  - intros i. unfold result_of, bind, ShoppingCart.add_item, get; simpl.
    unfold sum_Z; simpl. f_equal; lia.
Qed.

(** ** Invariants *)

Lemma store_inv_init loaded : store_inv (Store.__init__ loaded).
Proof.
  split; unfold cart_items; simpl; [constructor|].
  intros item Hitem. by apply elem_of_nil in Hitem.
Qed.

Lemma store_inv_add self item :
  store_inv self → item ∈ Store._items self → item ∉ cart_items self →
  store_inv (with_cart self (cart_items self ++ [item])).
Proof.
  intros [Hnodup Hsub] Hcat Hnew. split; unfold cart_items in *; simpl.
  - apply NoDup_app. split; [done|]. split; [|apply NoDup_singleton].
    intros x Hx ->%list_elem_of_singleton. done.
  - intros x [Hx| ->%list_elem_of_singleton]%elem_of_app; auto.
Qed.

Lemma store_inv_remove self l1 item l2 :
  store_inv self → cart_items self = l1 ++ item :: l2 →
  store_inv (with_cart self (l1 ++ l2)).
Proof.
  intros [Hnodup Hsub] Hcart. rewrite Hcart in Hnodup, Hsub.
  split; unfold cart_items; simpl.
  - apply NoDup_app in Hnodup as (H1 & H12 & H2).
    apply NoDup_cons in H2 as [_ H2].
    apply NoDup_app. split; [done|]. split; [|done].
    intros x Hx Hx2. apply (H12 x Hx). by right.
  - intros x [Hx|Hx]%elem_of_app; apply Hsub, elem_of_app; auto.
    right. by right.
Qed.

(** A call of a public method keeps the invariants and the catalog, and
    changes nothing when it raises. *)
Lemma perform_keeps_inv op self :
  store_inv self →
  store_inv (fst (perform op self))
  ∧ Store._items (fst (perform op self)) = Store._items self
  ∧ (snd (perform op self) ≠ None → fst (perform op self) = self).
Proof.
  intros Hinv. destruct op as [|n|h|n|n|]; unfold perform.
  - by rewrite get_items_run.
  - by rewrite search_by_name_run.
  - by rewrite search_by_hashtag_run.
  - rewrite add_item_run.
    destruct (List.filter (matches n) (Store._items self))
      as [|item [|item' found]] eqn:Hfound; simpl; [done| |done].
    rewrite on_shopping_cart_add_item.
    destruct (list_in item (cart_items self)) eqn:Hin; simpl; [done|].
    split; [|done]. apply store_inv_add; [done| |by apply list_in_false].
    assert (item ∈ List.filter (matches n) (Store._items self)) as Hitem
      by (rewrite Hfound; by left).
    by apply elem_of_filter_bool in Hitem as [? _].
  - destruct (remove_item_cases n self)
      as [[_ ->]|[(l1 & item & l2 & Hcart & _ & _ & _ & ->)|[_ ->]]];
      simpl; [done| |done].
    split; [|done]. by eapply store_inv_remove.
  - by rewrite checkout_run.
Qed.

Lemma reachable_store_inv loaded self :
  reachable loaded self → store_inv self ∧ Store._items self = loaded.
Proof.
  induction 1 as [|op self _ [IHinv IHcat]].
  - split; [apply store_inv_init|done].
  - destruct (perform_keeps_inv op self IHinv) as (? & Hcat & _).
    split; [done|]. by rewrite Hcat.
Qed.

(** C5: the cart has no duplicates, every cart item is an item of the
    catalog, and the catalog is the list it was constructed with: a call
    of a public method in a store with these invariants leaves a store
    with them and with the same catalog, and a call that raises, of
    [add_item] or [remove_item] in particular, leaves the store, cart and
    catalog, exactly as it was. *)
Theorem invariants_hold_across_operations (self : Store.t) (op : operation) :
  store_inv self →
  store_inv (fst (perform op self))
  ∧ Store._items (fst (perform op self)) = Store._items self
  ∧ (snd (perform op self) ≠ None → fst (perform op self) = self)
  ∧ (∀ item_name e,
       result_of (Store.add_item item_name self) = Raised e →
       state_after (Store.add_item item_name self) = self)
  ∧ (∀ item_name e,
       result_of (Store.remove_item item_name self) = Raised e →
       state_after (Store.remove_item item_name self) = self).
Proof.
  intros Hinv.
  destruct (perform_keeps_inv op self Hinv) as (H1 & H2 & H3).
  split; [done|]. split; [done|]. split; [done|]. split.
  - intros n e He.
    destruct (perform_keeps_inv (OpAddItem n) self Hinv) as (_ & _ & Hsame).
    unfold perform in Hsame. unfold result_of in He. rewrite He in Hsame.
    by apply Hsame.
  - intros n e He.
    destruct (perform_keeps_inv (OpRemoveItem n) self Hinv) as (_ & _ & Hsame).
    unfold perform in Hsame. unfold result_of in He. rewrite He in Hsame.
    by apply Hsame.
Qed.

(** C6: in a store with the invariants, when exactly one catalog item
    has the fragment in its name and [add_item] with the fragment
    returns, [remove_item] with the same fragment, called next, returns
    as well and leaves the store that [add_item] was called in. *)
Theorem add_then_remove_round_trip
    (self self' : Store.t) (item_name : string) :
  store_inv self →
  length (catalog_matches item_name self) = 1 →
  Store.add_item item_name self = (self', Returned tt) →
  Store.remove_item item_name self' = (self, Returned tt).
Proof.
  intros [_ Hsub] Hone Hadd. unfold catalog_matches in Hone.
  rewrite add_item_run in Hadd.
  destruct (List.filter (matches item_name) (Store._items self))
    as [|item [|item' found]] eqn:Hfound; simplify_eq/=.
  rewrite on_shopping_cart_add_item in Hadd.
  destruct (list_in item (cart_items self)) eqn:Hin; simplify_eq.
  apply list_in_false in Hin.
  assert (matches item_name item = true) as Hitem.
  { assert (item ∈ List.filter (matches item_name) (Store._items self)) as H
      by (rewrite Hfound; by left).
    by apply elem_of_filter_bool in H as [_ ?]. }
  assert (Forall (λ i, matches item_name i = false) (cart_items self)) as Hnone.
  { apply Forall_forall. intros i Hi.
    destruct (matches item_name i) eqn:Hm; [|done].
    assert (i ∈ List.filter (matches item_name) (Store._items self)) as H
      by (apply elem_of_filter_bool; auto).
    rewrite Hfound in H. apply list_elem_of_singleton in H as ->. done. }
  rewrite remove_item_run.
  change (cart_items (with_cart self (cart_items self ++ [item])))
    with (cart_items self ++ [item]).
  rewrite filter_length_split by done. simpl.
  erewrite on_shopping_cart_remove_found; [|reflexivity|done..].
  rewrite app_nil_r. by destruct self as [catalog [cart]].
Qed.

(** ** The theorems at a concrete store *)

Lemma store_inv_intro self :
  NoDup (cart_items self) →
  Forall (λ item, item ∈ Store._items self) (cart_items self) →
  store_inv self.
Proof.
  intros Hnodup Hsub. split; [done|].
  intros item Hitem. by eapply Forall_forall in Hsub.
Qed.

Lemma invariants_hold_across_operations_demo :
  store_inv pear_in_cart
  ∧ store_inv (fst (perform (OpAddItem "Bread") pear_in_cart))
  ∧ Store._items (fst (perform (OpAddItem "Bread") pear_in_cart))
    = Store._items pear_in_cart
  ∧ (snd (perform (OpAddItem "Bread") pear_in_cart) ≠ None →
     fst (perform (OpAddItem "Bread") pear_in_cart) = pear_in_cart)
  ∧ (∀ item_name e,
       result_of (Store.add_item item_name pear_in_cart) = Raised e →
       state_after (Store.add_item item_name pear_in_cart) = pear_in_cart)
  ∧ (∀ item_name e,
       result_of (Store.remove_item item_name pear_in_cart) = Raised e →
       state_after (Store.remove_item item_name pear_in_cart) = pear_in_cart).
Proof.
  assert (store_inv pear_in_cart) as Hinv.
  { apply store_inv_intro; apply (bool_decide_unpack _); vm_compute; exact I. }
  split; [exact Hinv|].
  exact (invariants_hold_across_operations pear_in_cart (OpAddItem "Bread") Hinv).
Defined.

Lemma add_then_remove_round_trip_demo :
  store_inv pear_in_cart
  ∧ length (catalog_matches "Bre" pear_in_cart) = 1
  ∧ Store.add_item "Bre" pear_in_cart
    = (with_cart demo_store [pear; bread], Returned tt)
  ∧ Store.remove_item "Bre" (with_cart demo_store [pear; bread])
    = (pear_in_cart, Returned tt).
Proof.
  assert (store_inv pear_in_cart) as Hinv.
  { apply store_inv_intro; apply (bool_decide_unpack _); vm_compute; exact I. }
  assert (length (catalog_matches "Bre" pear_in_cart) = 1) as Hone
    by reflexivity.
  assert (Store.add_item "Bre" pear_in_cart
          = (with_cart demo_store [pear; bread], Returned tt)) as Hadd
    by reflexivity.
  split; [exact Hinv|]. split; [exact Hone|]. split; [exact Hadd|].
  exact (add_then_remove_round_trip pear_in_cart _ "Bre" Hinv Hone Hadd).
Defined.


(** * Further properties of the two classes *)

(** ** Substrings *)

Lemma append_String c s t :
  String.append (String c s) t = String c (String.append s t).
Proof. reflexivity. Qed.

Lemma append_assoc s t u :
  String.append (String.append s t) u = String.append s (String.append t u).
Proof.
  induction s as [|c s IH]; [done|]. by rewrite !append_String, IH.
Qed.

Lemma prefix_spec a b :
  String.prefix a b = true ↔ ∃ s, b = String.append a s.
Proof.
  revert b. induction a as [|c a IH]; intros b.
  - split; [|by destruct b]. intros _. by exists b.
  - destruct b as [|d b]; simpl.
    + split; [done|]. by intros [s Hs].
    + destruct (Ascii.ascii_dec c d) as [->|Hne].
      * rewrite IH. split; intros [s Hs]; exists s.
        -- by rewrite append_String, <- Hs.
        -- rewrite append_String in Hs. by simplify_eq.
      * split; [done|]. intros [s Hs]. rewrite append_String in Hs.
        by simplify_eq.
Qed.

(** [a in b] holds exactly when [b] is [a] with something in front of it
    and something behind it. *)
Lemma contains_spec a b :
  contains a b = true
  ↔ ∃ p s, b = String.append p (String.append a s).
Proof.
  induction b as [|d b IH].
  - cbn [contains]. rewrite orb_false_r, prefix_spec. split.
    + intros [s Hs]. by exists EmptyString, s.
    + intros (p & s & Hb). destruct p as [|c p]; [by exists s|].
      by rewrite append_String in Hb.
  - cbn [contains]. rewrite orb_true_iff, IH, prefix_spec. split.
    + intros [[s Hs]|(p & s & Hb)].
      * by exists EmptyString, s.
      * exists (String d p), s. by rewrite append_String, <- Hb.
    + intros (p & s & Hb). destruct p as [|c p].
      * left. by exists s.
      * right. rewrite append_String in Hb. simplify_eq. by exists p, s.
Qed.

Lemma append_empty_r s : String.append s EmptyString = s.
Proof. induction s as [|c s IH]; [done|]. by rewrite append_String, IH. Qed.

Lemma contains_refl a : contains a a = true.
Proof.
  apply contains_spec. exists EmptyString, EmptyString.
  by rewrite append_empty_r.
Qed.

Lemma contains_trans a b c :
  contains a b = true → contains b c = true → contains a c = true.
Proof.
  rewrite !contains_spec. intros (p & s & ->) (p' & s' & ->).
  exists (String.append p' p), (String.append s s').
  by rewrite !append_assoc.
Qed.

(** ** Sorting a sorted list, and the sorted rearrangement *)

Lemma sort_by_sorted_id {A} (before : A → A → bool) l :
  StronglySorted (λ a b, before a b = true) l → sort_by before l = l.
Proof.
  induction 1 as [|x l _ IH Hx]; [done|].
  change (sort_by before (x :: l)) with (insort before x (sort_by before l)).
  rewrite IH. destruct Hx as [|y l Hy _]; [done|]. simpl. by rewrite Hy.
Qed.

Lemma sort_by_all_before {A} (before : A → A → bool) l :
  (∀ x y, x ∈ l → y ∈ l → before x y = true) → sort_by before l = l.
Proof.
  intros Hall. apply sort_by_sorted_id.
  induction l as [|x l IH]; constructor.
  - apply IH. intros a b Ha Hb. apply Hall; by right.
  - apply Forall_forall. intros y Hy. apply Hall; [by left|by right].
Qed.

Lemma sorted_rearrangement_unique {A} (R : A → A → Prop) l1 l2 :
  (∀ x y, x ∈ l1 → y ∈ l1 → R x y → R y x → x = y) →
  StronglySorted R l1 → StronglySorted R l2 → l1 ≡ₚ l2 → l1 = l2.
Proof.
  intros Hanti H1. revert l2.
  induction H1 as [|x l1 _ IH Hx]; intros l2 H2 Hperm.
  - by apply Permutation_nil in Hperm.
  - destruct H2 as [|y l2 H2 Hy].
    { symmetry in Hperm. by apply Permutation_nil in Hperm. }
    assert (x = y) as ->.
    { assert (x ∈ y :: l2) as Hxin by (rewrite <- Hperm; by left).
      assert (y ∈ x :: l1) as Hyin by (rewrite Hperm; by left).
      apply elem_of_cons in Hxin as [?|Hxin]; [done|].
      apply elem_of_cons in Hyin as [?|Hyin]; [done|].
      apply Hanti; [by left|by right| |].
      - by eapply Forall_forall in Hx.
      - by eapply Forall_forall in Hy. }
    f_equal. apply IH; [|done|by eapply Permutation_cons_inv].
    intros a b Ha Hb. apply Hanti; by right.
Qed.

Lemma distinct_names_inj l x y :
  NoDup (map name l) → x ∈ l → y ∈ l → name x = name y → x = y.
Proof.
  induction l as [|a l IH]; simpl; intros Hnd Hx Hy Hname.
  - by apply elem_of_nil in Hx.
  - apply NoDup_cons in Hnd as [Ha Hnd].
    apply elem_of_cons in Hx as [->|Hx]; apply elem_of_cons in Hy as [->|Hy].
    + done.
    + destruct Ha. rewrite Hname. apply list_elem_of_In, in_map.
      by apply list_elem_of_In.
    + destruct Ha. rewrite <- Hname. apply list_elem_of_In, in_map.
      by apply list_elem_of_In.
    + by apply IH.
Qed.

(** ** Rates and the ranking *)

(** No hashtag of [item] occurs in the hashtag list of a cart item. *)
Definition shares_no_hashtag (cart : list Item) (item : Item) : Prop :=
  Forall (λ tag, tag ∉ flat_map hashtags cart) (hashtags item).

Lemma occurrences_zero k l : occurrences k l = 0 ↔ k ∉ l.
Proof.
  split; [|apply occurrences_absent].
  unfold occurrences. induction l as [|h l IH]; simpl; intros Hz Hin.
  - by apply elem_of_nil in Hin.
  - destruct (bool_decide (h = k)) eqn:Hhk; [done|].
    apply bool_decide_eq_false in Hhk.
    apply elem_of_cons in Hin as [->|Hin]; [done|]. by apply IH.
Qed.

Lemma rate_zero cart item : rate cart item = 0 ↔ shares_no_hashtag cart item.
Proof.
  unfold rate, shares_no_hashtag.
  induction (hashtags item) as [|tag tags IH]; simpl.
  - split; [constructor|done].
  - rewrite Forall_cons, <- IH. unfold frequency at 1.
    rewrite <- occurrences_zero. lia.
Qed.

Lemma lexi_sort_sorted cart l :
  StronglySorted
    (λ x y, lexi name_before (rate_before cart) x y = true)
    (sort_by (lexi name_before (rate_before cart)) l).
Proof.
  apply sort_by_sorted.
  - intros x y. rewrite !lexi_ranked_before. apply ranked_before_total.
  - intros x y z. rewrite !lexi_ranked_before. apply ranked_before_trans.
Qed.

Lemma ranking_idempotent cart l : ranking cart (ranking cart l) = ranking cart l.
Proof.
  rewrite !ranking_two_pass. apply sort_by_sorted_id, lexi_sort_sorted.
Qed.

Lemma ranked_before_antisym cart x y :
  ranked_before cart x y → ranked_before cart y x → name x = name y.
Proof.
  unfold ranked_before. intros [?|[? Hxy]] [?|[? Hyx]]; try lia.
  by apply (anti_symm String.le).
Qed.

Lemma ranking_without_common_hashtags cart items_list :
  Forall (shares_no_hashtag cart) items_list →
  ranking cart items_list = sort_by name_before items_list.
Proof.
  intros Hnone. unfold ranking. apply sort_by_all_before.
  intros x y Hx Hy. rewrite elem_of_sort_by in Hx, Hy.
  unfold rate_before.
  assert (rate cart x = 0) as ->
    by (apply rate_zero; by eapply Forall_forall in Hnone).
  assert (rate cart y = 0) as ->
    by (apply rate_zero; by eapply Forall_forall in Hnone).
  done.
Qed.

(** X1: when no candidate has a hashtag in common with a cart item, and
    so in particular when the cart is empty, [sort_by_rate] returns the
    candidates in the order of the stable sort by name alone. *)
Theorem sort_by_rate_without_common_hashtags
    (self : Store.t) (items_list : list Item) :
  Forall (shares_no_hashtag (cart_items self)) items_list →
  Store.sort_by_rate items_list self
  = (self, Returned (sorted String.leb name false items_list)).
Proof.
  intros Hnone. rewrite sort_by_rate_run. do 2 f_equal.
  by apply ranking_without_common_hashtags.
Qed.

Lemma sort_by_rate_without_common_hashtags_demo :
  Forall (shares_no_hashtag (cart_items pear_in_cart)) [item_C; bread]
  ∧ Store.sort_by_rate [item_C; bread] pear_in_cart
    = (pear_in_cart, Returned (sorted String.leb name false [item_C; bread])).
Proof.
  assert (Forall (shares_no_hashtag (cart_items pear_in_cart)) [item_C; bread])
    as Hnone by (apply (bool_decide_unpack _); vm_compute; exact I).
  split; [exact Hnone|].
  exact (sort_by_rate_without_common_hashtags pear_in_cart _ Hnone).
Defined.

(** X2: the rate that [compute_rate] gives an item is 0 exactly when no
    hashtag of the item occurs in the hashtag list of a cart item. *)
Theorem compute_rate_zero_iff_no_common_hashtag (self : Store.t) (item : Item) :
  Store.compute_rate [item] self = (self, Returned [(0, item)])
  ↔ shares_no_hashtag (cart_items self) item.
Proof.
  rewrite compute_rate_run, <- rate_zero. simpl. split.
  - by intros [= ->].
  - by intros ->.
Qed.

(** X3: ranking a ranked list again changes nothing: [sort_by_rate] on
    the list that [sort_by_rate] returned returns that list. *)
Theorem sort_by_rate_idempotent (self : Store.t) (items_list : list Item) :
  bind (Store.sort_by_rate items_list) Store.sort_by_rate self
  = Store.sort_by_rate items_list self.
Proof.
  erewrite bind_returned by apply sort_by_rate_run.
  by rewrite !sort_by_rate_run, ranking_idempotent.
Qed.

(** X4: for candidates with pairwise distinct names the list that
    [sort_by_rate] returns does not depend on the order in which the
    candidates are given. *)
Theorem sort_by_rate_order_independent
    (self : Store.t) (l1 l2 : list Item) :
  NoDup (map name l1) → l1 ≡ₚ l2 →
  Store.sort_by_rate l1 self = Store.sort_by_rate l2 self.
Proof.
  intros Hnames Hperm. rewrite !sort_by_rate_run. do 2 f_equal.
  apply (sorted_rearrangement_unique (ranked_before (cart_items self))).
  - intros x y Hx Hy Hxy Hyx. rewrite ranking_perm in Hx, Hy.
    eapply distinct_names_inj; [exact Hnames|done..|].
    by eapply ranked_before_antisym.
  - apply ranking_sorted.
  - apply ranking_sorted.
  - by rewrite !ranking_perm.
Qed.

Lemma sort_by_rate_order_independent_demo :
  NoDup (map name [bread; apple; pear])
  ∧ [bread; apple; pear] ≡ₚ [pear; bread; apple]
  ∧ Store.sort_by_rate [bread; apple; pear] pear_in_cart
    = Store.sort_by_rate [pear; bread; apple] pear_in_cart.
Proof.
  assert (NoDup (map name [bread; apple; pear])) as Hnames
    by (apply (bool_decide_unpack _); vm_compute; exact I).
  assert ([bread; apple; pear] ≡ₚ [pear; bread; apple]) as Hperm
    by (apply (Permutation_cons_app [pear] [apple]); apply perm_swap).
  split; [exact Hnames|]. split; [exact Hperm|].
  exact (sort_by_rate_order_independent pear_in_cart _ _ Hnames Hperm).
Defined.

(** X5: when the catalog has no duplicate items, neither search returns
    an item twice. *)
Theorem search_results_have_no_duplicates
    (self : Store.t) (item_name hashtag : string) :
  NoDup (Store._items self) →
  (∃ result, Store.search_by_name item_name self = (self, Returned result)
             ∧ NoDup result)
  ∧ (∃ result, Store.search_by_hashtag hashtag self = (self, Returned result)
               ∧ NoDup result).
Proof.
  intros Hnodup. split.
  - eexists. split; [apply search_by_name_run|].
    rewrite ranking_perm. unfold name_candidates.
    by apply NoDup_ListNoDup, List.NoDup_filter, NoDup_ListNoDup.
  - eexists. split; [apply search_by_hashtag_run|].
    rewrite ranking_perm. unfold hashtag_candidates.
    by apply NoDup_ListNoDup, List.NoDup_filter, NoDup_ListNoDup.
Qed.

Lemma search_results_have_no_duplicates_demo :
  NoDup (Store._items pear_in_cart)
  ∧ (∃ result, Store.search_by_name "ea" pear_in_cart = (pear_in_cart, Returned result)
               ∧ NoDup result)
  ∧ (∃ result, Store.search_by_hashtag "fruit" pear_in_cart
               = (pear_in_cart, Returned result)
               ∧ NoDup result).
Proof.
  assert (NoDup (Store._items pear_in_cart)) as Hnodup
    by (apply (bool_decide_unpack _); vm_compute; exact I).
  split; [exact Hnodup|].
  exact (search_results_have_no_duplicates pear_in_cart "ea" "fruit" Hnodup).
Defined.

(** ** Calls of the store, one after the other *)

Lemma add_item_returned item_name self self' :
  Store.add_item item_name self = (self', Returned tt) →
  ∃ item,
    catalog_matches item_name self = [item]
    ∧ (item ∉ cart_items self)
    ∧ self' = with_cart self (cart_items self ++ [item]).
Proof.
  rewrite add_item_run. unfold catalog_matches.
  destruct (List.filter (matches item_name) (Store._items self))
    as [|item [|item' found]]; [done| |done].
  rewrite on_shopping_cart_add_item.
  destruct (list_in item (cart_items self)) eqn:Hin; [done|].
  intros [= <-]. exists item. by apply list_in_false in Hin.
Qed.

Lemma remove_item_returned item_name self self' :
  Store.remove_item item_name self = (self', Returned tt) →
  ∃ l1 item l2,
    cart_items self = l1 ++ item :: l2
    ∧ Forall (λ i, matches item_name i = false) l1
    ∧ matches item_name item = true
    ∧ Forall (λ i, matches item_name i = false) l2
    ∧ self' = with_cart self (l1 ++ l2).
Proof.
  destruct (remove_item_cases item_name self)
    as [[_ ->]|[(l1 & item & l2 & Hcart & H1 & Hitem & H2 & ->)|[_ ->]]];
    [done| |done].
  intros [= <-]. by exists l1, item, l2.
Qed.

Lemma elem_of_catalog_matches item_name self item :
  item ∈ catalog_matches item_name self
  ↔ item ∈ Store._items self ∧ matches item_name item = true.
Proof. apply elem_of_filter_bool. Qed.

Lemma total_price_app l1 l2 :
  total_price (l1 ++ l2) = (total_price l1 + total_price l2)%Z.
Proof. induction l1 as [|x l1 IH]; simpl; [done|]. rewrite IH. lia. Qed.

Lemma cart_matches_split item_name l1 item l2 :
  Forall (λ i, matches item_name i = false) l1 →
  matches item_name item = true →
  Forall (λ i, matches item_name i = false) l2 →
  List.filter (matches item_name) (l1 ++ item :: l2) = [item].
Proof.
  intros H1 Hitem H2. rewrite List.filter_app; simpl. rewrite Hitem.
  apply filter_no_match in H1, H2. by rewrite H1, H2.
Qed.

(** X6: once [add_item] has put the item matching a fragment into the
    cart, [search_by_name] with the same fragment returns the empty
    list. *)
Theorem search_after_add_item_is_empty
    (self self' : Store.t) (item_name : string) :
  Store.add_item item_name self = (self', Returned tt) →
  Store.search_by_name item_name self' = (self', Returned []).
Proof.
  intros (item & Hfound & _ & ->)%add_item_returned.
  rewrite search_by_name_run. do 2 f_equal.
  assert (name_candidates item_name
            (with_cart self (cart_items self ++ [item])) = []) as ->; [|done].
  apply filter_no_match, Forall_forall. intros x Hx.
  destruct (matches item_name x) eqn:Hm; [|done]. simpl.
  apply negb_false_iff, list_in_spec.
  assert (x ∈ catalog_matches item_name self) as Hin
    by (by apply elem_of_catalog_matches).
  rewrite Hfound in Hin. apply list_elem_of_singleton in Hin as ->.
  apply elem_of_app. right. by left.
Qed.

Lemma search_after_add_item_is_empty_demo :
  Store.add_item "Bre" pear_in_cart
    = (with_cart demo_store [pear; bread], Returned tt)
  ∧ Store.search_by_name "Bre" (with_cart demo_store [pear; bread])
    = (with_cart demo_store [pear; bread], Returned []).
Proof.
  assert (Store.add_item "Bre" pear_in_cart
          = (with_cart demo_store [pear; bread], Returned tt)) as Hadd
    by reflexivity.
  split; [exact Hadd|].
  exact (search_after_add_item_is_empty pear_in_cart _ "Bre" Hadd).
Defined.

(** X7: [Store.add_item] with a fragment it has just added an item for
    raises [ItemAlreadyExistsError] and leaves the store as it is. *)
Theorem add_item_twice_raises (self self' : Store.t) (item_name : string) :
  Store.add_item item_name self = (self', Returned tt) →
  Store.add_item item_name self' = (self', Raised ItemAlreadyExistsError).
Proof.
  intros (item & Hfound & _ & ->)%add_item_returned.
  rewrite add_item_run.
  change (Store._items (with_cart self (cart_items self ++ [item])))
    with (Store._items self).
  unfold catalog_matches in Hfound. rewrite Hfound.
  rewrite on_shopping_cart_add_item.
  replace (list_in item (cart_items (with_cart self (cart_items self ++ [item]))))
    with true; [done|].
  symmetry. apply list_in_spec, elem_of_app. right. by left.
Qed.

Lemma add_item_twice_raises_demo :
  Store.add_item "Bre" pear_in_cart
    = (with_cart demo_store [pear; bread], Returned tt)
  ∧ Store.add_item "Bre" (with_cart demo_store [pear; bread])
    = (with_cart demo_store [pear; bread], Raised ItemAlreadyExistsError).
Proof.
  assert (Store.add_item "Bre" pear_in_cart
          = (with_cart demo_store [pear; bread], Returned tt)) as Hadd
    by reflexivity.
  split; [exact Hadd|].
  exact (add_item_twice_raises pear_in_cart _ "Bre" Hadd).
Defined.

(** X8: a returning [Store.add_item] raises what [checkout] returns by
    the price of the one catalog item that matches the fragment. *)
Theorem checkout_after_add_item (self self' : Store.t) (item_name : string) :
  Store.add_item item_name self = (self', Returned tt) →
  ∃ item total,
    catalog_matches item_name self = [item]
    ∧ result_of (Store.checkout self) = Returned total
    ∧ result_of (Store.checkout self') = Returned (total + price item)%Z.
Proof.
  intros (item & Hfound & _ & ->)%add_item_returned.
  exists item, (total_price (cart_items self)).
  split; [done|]. rewrite !checkout_run, !sum_Z_prices.
  change (cart_items (with_cart self (cart_items self ++ [item])))
    with (cart_items self ++ [item]).
  rewrite total_price_app. unfold result_of; simpl.
  split; [done|]. f_equal; lia.
Qed.

Lemma checkout_after_add_item_demo :
  Store.add_item "Bre" pear_in_cart
    = (with_cart demo_store [pear; bread], Returned tt)
  ∧ ∃ item total,
      catalog_matches "Bre" pear_in_cart = [item]
      ∧ result_of (Store.checkout pear_in_cart) = Returned total
      ∧ result_of (Store.checkout (with_cart demo_store [pear; bread]))
        = Returned (total + price item)%Z.
Proof.
  assert (Store.add_item "Bre" pear_in_cart
          = (with_cart demo_store [pear; bread], Returned tt)) as Hadd
    by reflexivity.
  split; [exact Hadd|].
  exact (checkout_after_add_item pear_in_cart _ "Bre" Hadd).
Defined.

(** X9: a returning [Store.remove_item] takes exactly one item out of
    the cart, the one cart item that matches the fragment, and lowers
    what [checkout] returns by the price of that item. *)
Theorem checkout_after_remove_item (self self' : Store.t) (item_name : string) :
  Store.remove_item item_name self = (self', Returned tt) →
  ∃ item total,
    cart_matches item_name self = [item]
    ∧ cart_items self ≡ₚ item :: cart_items self'
    ∧ result_of (Store.checkout self) = Returned total
    ∧ result_of (Store.checkout self') = Returned (total - price item)%Z.
Proof.
  intros (l1 & item & l2 & Hcart & H1 & Hitem & H2 & ->)%remove_item_returned.
  exists item, (total_price (cart_items self)).
  split; [unfold cart_matches; rewrite Hcart; by apply cart_matches_split|].
  split; [rewrite Hcart; symmetry; apply Permutation_middle|].
  rewrite !checkout_run, !sum_Z_prices.
  change (cart_items (with_cart self (l1 ++ l2))) with (l1 ++ l2).
  rewrite Hcart, !total_price_app. unfold result_of; simpl.
  split; [done|]. f_equal; lia.
Qed.

Lemma checkout_after_remove_item_demo :
  Store.remove_item "Pea" (with_cart demo_store [pear; bread])
    = (with_cart demo_store [bread], Returned tt)
  ∧ ∃ item total,
      cart_matches "Pea" (with_cart demo_store [pear; bread]) = [item]
      ∧ cart_items (with_cart demo_store [pear; bread])
        ≡ₚ item :: cart_items (with_cart demo_store [bread])
      ∧ result_of (Store.checkout (with_cart demo_store [pear; bread]))
        = Returned total
      ∧ result_of (Store.checkout (with_cart demo_store [bread]))
        = Returned (total - price item)%Z.
Proof.
  assert (Store.remove_item "Pea" (with_cart demo_store [pear; bread])
          = (with_cart demo_store [bread], Returned tt)) as Hrem
    by reflexivity.
  split; [exact Hrem|].
  exact (checkout_after_remove_item _ _ "Pea" Hrem).
Defined.



(** X11: in a store with the invariants, the item that a returning
    [remove_item] took out of the cart is among the items that
    [search_by_name] with the same fragment returns next. *)
Theorem removed_item_is_found_again
    (self self' : Store.t) (item_name : string) :
  store_inv self →
  Store.remove_item item_name self = (self', Returned tt) →
  ∃ item result,
    cart_matches item_name self = [item]
    ∧ Store.search_by_name item_name self' = (self', Returned result)
    ∧ item ∈ result.
Proof.
  intros [Hnodup Hsub]
    (l1 & item & l2 & Hcart & H1 & Hitem & H2 & ->)%remove_item_returned.
  exists item. eexists.
  split; [unfold cart_matches; rewrite Hcart; by apply cart_matches_split|].
  split; [apply search_by_name_run|].
  rewrite ranking_perm. unfold name_candidates.
  apply elem_of_filter_bool. split.
  - apply Hsub. rewrite Hcart. apply elem_of_app. right. by left.
  - rewrite Hitem. simpl. apply negb_true_iff, list_in_false.
    change (cart_items (with_cart self (l1 ++ l2))) with (l1 ++ l2).
    rewrite Hcart in Hnodup.
    apply NoDup_app in Hnodup as (_ & H12 & [Hnot2 _]%NoDup_cons).
    intros [Hin|Hin]%elem_of_app; [|done].
    apply (H12 item Hin). by left.
Qed.

Lemma removed_item_is_found_again_demo :
  store_inv (with_cart demo_store [pear; bread])
  ∧ Store.remove_item "Pea" (with_cart demo_store [pear; bread])
    = (with_cart demo_store [bread], Returned tt)
  ∧ ∃ item result,
      cart_matches "Pea" (with_cart demo_store [pear; bread]) = [item]
      ∧ Store.search_by_name "Pea" (with_cart demo_store [bread])
        = (with_cart demo_store [bread], Returned result)
      ∧ item ∈ result.
Proof.
  assert (store_inv (with_cart demo_store [pear; bread])) as Hinv.
  { apply store_inv_intro; apply (bool_decide_unpack _); vm_compute; exact I. }
  assert (Store.remove_item "Pea" (with_cart demo_store [pear; bread])
          = (with_cart demo_store [bread], Returned tt)) as Hrem
    by reflexivity.
  split; [exact Hinv|]. split; [exact Hrem|].
  exact (removed_item_is_found_again _ _ "Pea" Hinv Hrem).
Defined.

(** X12: [Store.add_item] returns or raises one of
    [ItemNotExistError], [TooManyMatchesError] and
    [ItemAlreadyExistsError]; it never changes the catalog, and in any
    store, with or without the invariants, a call that raises leaves the
    store as it was. *)
Theorem add_item_raises_only_its_three_errors
    (self : Store.t) (item_name : string) :
  (result_of (Store.add_item item_name self) = Returned tt
   ∨ result_of (Store.add_item item_name self) = Raised ItemNotExistError
   ∨ result_of (Store.add_item item_name self) = Raised TooManyMatchesError
   ∨ result_of (Store.add_item item_name self) = Raised ItemAlreadyExistsError)
  ∧ Store._items (state_after (Store.add_item item_name self))
    = Store._items self
  ∧ (∀ e, result_of (Store.add_item item_name self) = Raised e →
       state_after (Store.add_item item_name self) = self).
Proof.
  rewrite add_item_run.
  destruct (List.filter (matches item_name) (Store._items self))
    as [|item [|item' found]]; unfold result_of, state_after; simpl;
    [by auto| |by auto 6].
  rewrite on_shopping_cart_add_item.
  destruct (list_in item (cart_items self)); simpl; [by auto 6|].
  split; [by left|]. split; [done|]. by intros e [=].
Qed.

(** ** The cart on its own *)

Lemma cart_remove_item_cases item_name cart :
  (Forall (λ i, matches item_name i = false) (ShoppingCart.items cart)
   ∧ ShoppingCart.remove_item item_name cart = (cart, Raised ItemNotExistError))
  ∨ (∃ l1 item l2,
       ShoppingCart.items cart = l1 ++ item :: l2
       ∧ Forall (λ i, matches item_name i = false) l1
       ∧ matches item_name item = true
       ∧ ShoppingCart.remove_item item_name cart
         = ({| ShoppingCart.items := l1 ++ l2 |}, Returned tt)).
Proof.
  destruct (first_match_split (matches item_name) (ShoppingCart.items cart))
    as [Hnone|(l1 & item & l2 & Hcart & H1 & Hitem)].
  - left. split; [done|]. by apply cart_remove_item_none.
  - right. exists l1, item, l2. repeat split; try done.
    destruct cart as [l]; simpl in Hcart; subst l.
    by apply cart_remove_item_found.
Qed.

(** X13: [len] of the cart after [add_item] is one more than before,
    and after [remove_item] one less, whenever the call returns; when the
    call raises, [len] is not reached and the error is the result. *)
Theorem cart_len_after_add_and_remove
    (cart : ShoppingCart.t) (item : Item) (item_name : string) :
  result_of (bind (ShoppingCart.add_item item)
                  (λ _, ShoppingCart.__len__) cart)
  = (if list_in item (ShoppingCart.items cart)
     then Raised ItemAlreadyExistsError
     else Returned (S (length (ShoppingCart.items cart))))
  ∧ result_of (bind (ShoppingCart.remove_item item_name)
                    (λ _, ShoppingCart.__len__) cart)
    = (match List.filter (matches item_name) (ShoppingCart.items cart) with
       | [] => Raised ItemNotExistError
       | _ :: _ => Returned (length (ShoppingCart.items cart) - 1)
       end).
Proof.
  split.
  - unfold bind. rewrite cart_add_item_run.
    destruct (list_in item (ShoppingCart.items cart)); [done|].
    unfold result_of; simpl. rewrite length_app; simpl. f_equal; lia.
  - unfold bind.
    destruct (cart_remove_item_cases item_name cart)
      as [[Hnone ->]|(l1 & it & l2 & Hcart & H1 & Hit & ->)].
    + apply filter_no_match in Hnone. by rewrite Hnone.
    + rewrite Hcart, List.filter_app; simpl. rewrite Hit.
      apply filter_no_match in H1. rewrite H1. unfold result_of; simpl.
      rewrite !length_app; simpl. f_equal; lia.
Qed.

(** X14: a cart without duplicates has none after [add_item] and none
    after [remove_item], whatever item or fragment they are called with
    and whether they return or raise. *)
Theorem cart_stays_duplicate_free
    (cart : ShoppingCart.t) (item : Item) (item_name : string) :
  NoDup (ShoppingCart.items cart) →
  NoDup (ShoppingCart.items (state_after (ShoppingCart.add_item item cart)))
  ∧ NoDup (ShoppingCart.items
             (state_after (ShoppingCart.remove_item item_name cart))).
Proof.
  intros Hnodup. split.
  - rewrite cart_add_item_run.
    destruct (list_in item (ShoppingCart.items cart)) eqn:Hin; [done|].
    apply list_in_false in Hin. unfold state_after; simpl.
    apply NoDup_app. split; [done|]. split; [|apply NoDup_singleton].
    by intros x Hx ->%list_elem_of_singleton.
  - destruct (cart_remove_item_cases item_name cart)
      as [[_ ->]|(l1 & it & l2 & Hcart & _ & _ & ->)]; [done|].
    unfold state_after; simpl. rewrite Hcart in Hnodup.
    apply NoDup_app in Hnodup as (H1 & H12 & [_ H2]%NoDup_cons).
    apply NoDup_app. split; [done|]. split; [|done].
    intros x Hx Hx2. apply (H12 x Hx). by right.
Qed.

Lemma cart_stays_duplicate_free_demo :
  NoDup (ShoppingCart.items {| ShoppingCart.items := [pear; bread] |})
  ∧ NoDup (ShoppingCart.items
             (state_after (ShoppingCart.add_item apple
                             {| ShoppingCart.items := [pear; bread] |})))
  ∧ NoDup (ShoppingCart.items
             (state_after (ShoppingCart.remove_item "ea"
                             {| ShoppingCart.items := [pear; bread] |}))).
Proof.
  assert (NoDup (ShoppingCart.items {| ShoppingCart.items := [pear; bread] |}))
    as Hnodup by (apply (bool_decide_unpack _); vm_compute; exact I).
  split; [exact Hnodup|].
  exact (cart_stays_duplicate_free _ apple "ea" Hnodup).
Defined.

(** X15: [ShoppingCart.remove_item] returns or raises
    [ItemNotExistError], never the [ValueError] of [list.remove]; it
    raises exactly when no cart item has the fragment in its name, and
    then leaves the cart as it was; it returns also when several cart
    items match. *)
Theorem cart_remove_item_raises_iff_no_match
    (cart : ShoppingCart.t) (item_name : string) :
  (result_of (ShoppingCart.remove_item item_name cart) = Raised ItemNotExistError
   ↔ List.filter (matches item_name) (ShoppingCart.items cart) = [])
  ∧ (result_of (ShoppingCart.remove_item item_name cart) = Returned tt
     ↔ 1 ≤ length (List.filter (matches item_name) (ShoppingCart.items cart)))
  ∧ (∀ e, result_of (ShoppingCart.remove_item item_name cart) = Raised e →
       e = ItemNotExistError
       ∧ state_after (ShoppingCart.remove_item item_name cart) = cart).
Proof.
  destruct (cart_remove_item_cases item_name cart)
    as [[Hnone ->]|(l1 & it & l2 & Hcart & H1 & Hit & ->)];
    unfold result_of, state_after; simpl.
  - apply filter_no_match in Hnone. rewrite Hnone. simpl.
    split; [done|]. split; [split; [done|lia]|]. by intros e [= <-].
  - rewrite Hcart, List.filter_app; simpl. rewrite Hit.
    apply filter_no_match in H1. rewrite H1. simpl.
    split; [done|]. split; [split; [lia|done]|]. by intros e [=].
Qed.

(** ** Searching *)

(** X16: a fragment that has another fragment as a substring finds no
    more: every item that [search_by_name] returns for the longer
    fragment is among those it returns for the shorter one. *)
Theorem search_by_name_narrows
    (self : Store.t) (shorter longer : string) :
  contains shorter longer = true →
  ∃ wide narrow,
    Store.search_by_name shorter self = (self, Returned wide)
    ∧ Store.search_by_name longer self = (self, Returned narrow)
    ∧ ∀ item, item ∈ narrow → item ∈ wide.
Proof.
  intros Hsub. do 2 eexists.
  split; [apply search_by_name_run|]. split; [apply search_by_name_run|].
  intros item. rewrite !ranking_perm. unfold name_candidates.
  rewrite !elem_of_filter_bool, !andb_true_iff. unfold matches.
  intros (Hin & Hm & Hcart). repeat split; try done.
  by eapply contains_trans.
Qed.

Lemma search_by_name_narrows_demo :
  contains "ea" "ead" = true
  ∧ ∃ wide narrow,
      Store.search_by_name "ea" demo_store = (demo_store, Returned wide)
      ∧ Store.search_by_name "ead" demo_store = (demo_store, Returned narrow)
      ∧ ∀ item, item ∈ narrow → item ∈ wide.
Proof.
  assert (contains "ea" "ead" = true) as Hsub by reflexivity.
  split; [exact Hsub|].
  exact (search_by_name_narrows demo_store "ea" "ead" Hsub).
Defined.

(** X17: the full name of a catalog item always matches: [add_item]
    with it does not raise [ItemNotExistError], and while the item is not
    in the cart [search_by_name] with it returns the item. *)
Theorem full_name_finds_the_item (self : Store.t) (item : Item) :
  item ∈ Store._items self →
  (result_of (Store.add_item (name item) self) = Returned tt
   ∨ result_of (Store.add_item (name item) self) = Raised TooManyMatchesError
   ∨ result_of (Store.add_item (name item) self) = Raised ItemAlreadyExistsError)
  ∧ (item ∉ cart_items self →
     ∃ result,
       Store.search_by_name (name item) self = (self, Returned result)
       ∧ item ∈ result).
Proof.
  intros Hin.
  assert (matches (name item) item = true) as Hm by apply contains_refl.
  split.
  - assert (item ∈ catalog_matches (name item) self) as Hfound
      by (by apply elem_of_catalog_matches).
    unfold catalog_matches in Hfound. rewrite add_item_run.
    destruct (List.filter (matches (name item)) (Store._items self))
      as [|item' [|item'' found]]; unfold result_of; simpl.
    + by apply elem_of_nil in Hfound.
    + rewrite on_shopping_cart_add_item.
      destruct (list_in item' (cart_items self)); simpl; auto.
    + auto.
  - intros Hcart. eexists. split; [apply search_by_name_run|].
    rewrite ranking_perm. unfold name_candidates.
    apply elem_of_filter_bool. split; [done|].
    rewrite Hm. simpl. by apply negb_true_iff, list_in_false.
Qed.

Lemma full_name_finds_the_item_demo :
  bread ∈ Store._items pear_in_cart
  ∧ (result_of (Store.add_item (name bread) pear_in_cart) = Returned tt
     ∨ result_of (Store.add_item (name bread) pear_in_cart)
       = Raised TooManyMatchesError
     ∨ result_of (Store.add_item (name bread) pear_in_cart)
       = Raised ItemAlreadyExistsError)
  ∧ (bread ∉ cart_items pear_in_cart →
     ∃ result,
       Store.search_by_name (name bread) pear_in_cart
       = (pear_in_cart, Returned result)
       ∧ bread ∈ result).
Proof.
  assert (bread ∈ Store._items pear_in_cart) as Hin
    by (apply (bool_decide_unpack _); vm_compute; exact I).
  split; [exact Hin|].
  exact (full_name_finds_the_item pear_in_cart bread Hin).
Defined.

(** ** The constructed store and the states of a session *)

(** X18: in a store as [__init__] leaves it, with the empty cart,
    [search_by_name] with the empty fragment returns the whole catalog in
    the order of the stable sort by name, and [search_by_hashtag] returns
    the items that have the hashtag in that order. *)
Theorem searches_in_the_constructed_store (loaded : list Item) (hashtag : string) :
  Store.search_by_name "" (Store.__init__ loaded)
  = (Store.__init__ loaded, Returned (sorted String.leb name false loaded))
  ∧ Store.search_by_hashtag hashtag (Store.__init__ loaded)
    = (Store.__init__ loaded,
       Returned (sorted String.leb name false
                   (List.filter (λ item, bool_decide (hashtag ∈ hashtags item))
                                loaded))).
Proof.
  assert (∀ l, Forall (shares_no_hashtag []) l) as Hnone.
  { intros l. apply Forall_forall. intros item _.
    apply Forall_forall. intros tag _. apply not_elem_of_nil. }
  split.
  - rewrite search_by_name_run. do 2 f_equal.
    change (cart_items (Store.__init__ loaded)) with (@nil Item).
    rewrite ranking_without_common_hashtags by apply Hnone.
    change (sorted String.leb name false loaded)
      with (sort_by name_before loaded).
    f_equal. unfold name_candidates; simpl.
    rewrite <- (List.filter_true loaded) at 2.
    apply List.filter_ext. intros item. unfold matches.
    by rewrite contains_empty.
  - rewrite search_by_hashtag_run. do 2 f_equal.
    change (cart_items (Store.__init__ loaded)) with (@nil Item).
    rewrite ranking_without_common_hashtags by apply Hnone.
    change (sorted String.leb name false ?l) with (sort_by name_before l).
    f_equal. unfold hashtag_candidates; simpl.
    apply List.filter_ext. intros item. by rewrite andb_true_r.
Qed.

(** X19: in every state that a session reaches from [__init__] by calls
    of the public methods, [get_items] returns the list the store was
    constructed with, the cart has no duplicates and holds catalog items
    only. *)
Theorem reachable_stores_keep_catalog (loaded : list Item) (self : Store.t) :
  reachable loaded self →
  Store.get_items self = (self, Returned loaded)
  ∧ NoDup (cart_items self)
  ∧ ∀ item, item ∈ cart_items self → item ∈ loaded.
Proof.
  intros [[Hnodup Hsub] Hcat]%reachable_store_inv.
  rewrite get_items_run, Hcat. split; [done|]. split; [done|].
  intros item Hitem. rewrite <- Hcat. by apply Hsub.
Qed.

Lemma reachable_stores_keep_catalog_demo :
  reachable [bread; apple; pear] pear_in_cart
  ∧ Store.get_items pear_in_cart = (pear_in_cart, Returned [bread; apple; pear])
  ∧ NoDup (cart_items pear_in_cart)
  ∧ ∀ item, item ∈ cart_items pear_in_cart → item ∈ [bread; apple; pear].
Proof.
  assert (reachable [bread; apple; pear] pear_in_cart) as Hreach
    by exact (reachable_step _ (OpAddItem "Pear") _ (reachable_init _)).
  split; [exact Hreach|].
  exact (reachable_stores_keep_catalog _ _ Hreach).
Defined.

(** ** Filling a cart *)

(** [cart.add_item(item)] for the items of [l], one call after the other. *)
Fixpoint add_items (l : list Item) : method ShoppingCart.t unit :=
  match l with
  | [] => ret tt
  | item :: l' => _ <- ShoppingCart.add_item item ;; add_items l'
  end.

Lemma add_items_run l cart :
  NoDup (ShoppingCart.items cart ++ l) →
  add_items l cart
  = ({| ShoppingCart.items := ShoppingCart.items cart ++ l |}, Returned tt).
Proof.
  revert cart. induction l as [|item l IH]; intros [l0] Hnodup; simpl in *.
  - by rewrite app_nil_r.
  - unfold bind. rewrite cart_add_item_run; simpl.
    assert (item ∉ l0) as Hnew.
    { apply NoDup_app in Hnodup as (_ & H12 & _).
      intros Hin. apply (H12 item Hin). by left. }
    apply list_in_false in Hnew. rewrite Hnew.
    rewrite IH; simpl; by rewrite <- app_assoc.
Qed.

(** X20: adding the items of a list without duplicates to the empty
    cart, one after the other, never raises; the cart then iterates over
    the items in the order they were added, has their number as length
    and the sum of their prices as subtotal. *)
Theorem cart_filled_in_order (l : list Item) :
  NoDup l →
  add_items l ShoppingCart.__init__
  = ({| ShoppingCart.items := l |}, Returned tt)
  ∧ result_of (bind (add_items l) (λ _, ShoppingCart.__iter__)
                    ShoppingCart.__init__) = Returned l
  ∧ result_of (bind (add_items l) (λ _, ShoppingCart.__len__)
                    ShoppingCart.__init__) = Returned (length l)
  ∧ result_of (bind (add_items l) (λ _, ShoppingCart.get_subtotal)
                    ShoppingCart.__init__) = Returned (total_price l).
Proof.
  intros Hnodup.
  assert (add_items l ShoppingCart.__init__
          = ({| ShoppingCart.items := l |}, Returned tt)) as Hrun
    by (by rewrite add_items_run).
  split; [exact Hrun|].
  split; [by erewrite bind_returned by exact Hrun|].
  split; [by erewrite bind_returned by exact Hrun|].
  erewrite bind_returned by exact Hrun.
  unfold ShoppingCart.get_subtotal, bind, get, ret, result_of; simpl.
  by rewrite sum_Z_prices.
Qed.

Lemma cart_filled_in_order_demo :
  NoDup [pear; bread; apple]
  ∧ add_items [pear; bread; apple] ShoppingCart.__init__
    = ({| ShoppingCart.items := [pear; bread; apple] |}, Returned tt)
  ∧ result_of (bind (add_items [pear; bread; apple])
                    (λ _, ShoppingCart.__iter__) ShoppingCart.__init__)
    = Returned [pear; bread; apple]
  ∧ result_of (bind (add_items [pear; bread; apple])
                    (λ _, ShoppingCart.__len__) ShoppingCart.__init__)
    = Returned (length [pear; bread; apple])
  ∧ result_of (bind (add_items [pear; bread; apple])
                    (λ _, ShoppingCart.get_subtotal) ShoppingCart.__init__)
    = Returned (total_price [pear; bread; apple]).
Proof.
  assert (NoDup [pear; bread; apple]) as Hnodup
    by (apply (bool_decide_unpack _); vm_compute; exact I).
  split; [exact Hnodup|].
  exact (cart_filled_in_order [pear; bread; apple] Hnodup).
Defined.

(** ** Rates add up over the cart *)

Lemma occurrences_app k l1 l2 :
  occurrences k (l1 ++ l2) = occurrences k l1 + occurrences k l2.
Proof. unfold occurrences. by rewrite List.filter_app, length_app. Qed.

Lemma rate_app cart1 cart2 item :
  rate (cart1 ++ cart2) item = rate cart1 item + rate cart2 item.
Proof.
  unfold rate. induction (hashtags item) as [|tag tags IH]; simpl; [done|].
  rewrite IH. unfold frequency. rewrite flat_map_app, occurrences_app. lia.
Qed.

(** X21: the rate that [compute_rate] gives a candidate is additive
    over the cart: for a cart made of two parts it is the sum of the
    rates for the parts, so that adding an item to the cart raises the
    rate of a candidate by its rate against that item alone and never
    lowers it. *)
Theorem compute_rate_additive_over_cart
    (catalog cart1 cart2 : list Item) (item : Item) :
  ∃ r1 r2,
    Store.compute_rate [item] (with_cart (Store.__init__ catalog) cart1)
    = (with_cart (Store.__init__ catalog) cart1, Returned [(r1, item)])
    ∧ Store.compute_rate [item] (with_cart (Store.__init__ catalog) cart2)
      = (with_cart (Store.__init__ catalog) cart2, Returned [(r2, item)])
    ∧ Store.compute_rate [item]
        (with_cart (Store.__init__ catalog) (cart1 ++ cart2))
      = (with_cart (Store.__init__ catalog) (cart1 ++ cart2),
         Returned [(r1 + r2, item)]).
Proof.
  exists (rate cart1 item), (rate cart2 item).
  rewrite !compute_rate_run. simpl.
  change (cart_items (with_cart (Store.__init__ catalog) ?c)) with c.
  by rewrite rate_app.
Qed.
